(** * C4 diagram helpers: label formatting and element builders

  A shallow embedding of [diagrams/c4/__init__.py] together with the two
  routines of the Python standard library that its behaviour rests on,
  [html.escape] and [textwrap.TextWrapper.wrap], followed by the properties
  of the label formatter and of the builders.

  - [PyStr], [Html], [TextWrap], [Wrap]: strings and the two library
    routines; the outer loop of [_wrap_chunks] is defined by well-founded
    recursion on the size of the stack of chunks.
  - [C4]: the functions of the module, one definition each.
  - [Props]: the vocabulary of the properties.
  - [HtmlFacts], [WrapFacts], [DictFacts]: lemmas on escaping, on the
    wrapping loop and on the dictionaries.
  - [BuilderFacts], [LabelFacts]: the properties of the module.

  A Python string is a list of characters of 8 bits, its code points, which
  covers the texts of the code points 0 to 255; the classes of characters
  ([\w], [\d], white space) are those of Unicode on that range.  A
  dictionary of attributes, or of keyword arguments, is a finite map from
  names to strings. *)

From Stdlib Require Import String Ascii List Arith Bool Lia.
From stdpp Require Import gmap strings.
From Equations Require Import Equations.
Import ListNotations.

Local Open Scope string_scope.
Local Open Scope list_scope.
Local Open Scope nat_scope.

(** ** Python strings *)

Module PyStr.

Definition str := list ascii.

(** A string literal of the source. *)
Definition lit (s : string) : str := list_ascii_of_string s.

(** The double quote, which the literals below cannot contain. *)
Definition DQ : ascii := "034"%char.

(** Truth value of a string: [if s] holds for the non-empty ones. *)
Definition truthy (s : str) : bool :=
  match s with [] => false | _ :: _ => true end.

(** [sep.join(parts)] *)
Fixpoint join (sep : str) (parts : list str) : str :=
  match parts with
  | [] => []
  | [p] => p
  | p :: ps => p ++ sep ++ join sep ps
  end.

(** [s.replace(old, new)] for a pattern [old] of one character. *)
Fixpoint replace (old : ascii) (new : str) (s : str) : str :=
  match s with
  | [] => []
  | c :: s' => (if Ascii.eqb c old then new else [c]) ++ replace old new s'
  end.

(** [c.isspace()]: the white space of [str.strip]. *)
Definition isspace (c : ascii) : bool :=
  let n := nat_of_ascii c in
  ((9 <=? n) && (n <=? 13)) || ((28 <=? n) && (n <=? 32))
  || (n =? 133) || (n =? 160).

Fixpoint lstrip (s : str) : str :=
  match s with
  | c :: s' => if isspace c then lstrip s' else s
  | [] => []
  end.

Definition rstrip (s : str) : str := rev (lstrip (rev s)).

Definition strip (s : str) : str := rstrip (lstrip s).

(** [s.expandtabs(tabsize)], started at column [col]. *)
Fixpoint expandtabs_from (tabsize col : nat) (s : str) : str :=
  match s with
  | [] => []
  | c :: s' =>
      if Ascii.eqb c "009" then
        if 0 <? tabsize then
          let incr := tabsize - col mod tabsize in
          repeat " "%char incr ++ expandtabs_from tabsize (col + incr) s'
        else expandtabs_from tabsize col s'
      else
        c :: expandtabs_from tabsize
               (if Ascii.eqb c "010" || Ascii.eqb c "013" then 0 else S col) s'
  end.

Definition expandtabs (tabsize : nat) (s : str) : str :=
  expandtabs_from tabsize 0 s.

(** [s.rfind(c, 0, stop)]: the last index below [stop] holding [c]. *)
Fixpoint find_last (c : ascii) (s : str) (i : nat) : option nat :=
  match s with
  | [] => None
  | x :: s' =>
      match find_last c s' (S i) with
      | Some j => Some j
      | None => if Ascii.eqb x c then Some i else None
      end
  end.

Definition rfind (c : ascii) (stop : nat) (s : str) : option nat :=
  find_last c (firstn stop s) 0.

End PyStr.
Import PyStr.

(** ** [html.escape(s)], with [quote=True] *)

Module Html.

Definition escape (s : str) : str :=
  let s := replace "&" (lit "&amp;") s in
  let s := replace "<" (lit "&lt;") s in
  let s := replace ">" (lit "&gt;") s in
  let s := replace DQ (lit "&quot;") s in
  let s := replace "'" (lit "&#x27;") s in
  s.

End Html.

(** ** [textwrap.TextWrapper]

  The source builds its wrappers with [width] and [max_lines] only; every
  other option keeps its default: tabs expanded to columns of 8, white
  space replaced by spaces, long words broken, hyphens taken as break
  points, white space dropped at line ends, no indents, and the
  placeholder [" [...]"]. *)

Module TextWrap.

Record TextWrapper := {
  width : nat;
  max_lines : option nat
}.

Definition placeholder : str := lit " [...]".
Definition tabsize : nat := 8.

(** [_whitespace = '\t\n\x0b\x0c\r '] *)
Definition is_whitespace (c : ascii) : bool :=
  let n := nat_of_ascii c in
  ((9 <=? n) && (n <=? 13)) || (n =? 32).

(** The classes [\d] and [\w] of the regular expressions. *)
Definition is_digit (c : ascii) : bool :=
  let n := nat_of_ascii c in (48 <=? n) && (n <=? 57).

Definition is_word (c : ascii) : bool :=
  let n := nat_of_ascii c in
  is_digit c
  || ((65 <=? n) && (n <=? 90)) || (n =? 95) || ((97 <=? n) && (n <=? 122))
  || (n =? 170) || (n =? 178) || (n =? 179) || (n =? 181)
  || (n =? 185) || (n =? 186) || ((188 <=? n) && (n <=? 190))
  || ((192 <=? n) && (n <=? 214)) || ((216 <=? n) && (n <=? 246))
  || (248 <=? n).

(** [letter = r'[^\d\W]'] *)
Definition is_letter (c : ascii) : bool := is_word c && negb (is_digit c).

(** [word_punct]: a [\w] or one of the seven marks [!], double quote,
    single quote, [&], [.], [,], [?]. *)
Definition is_word_punct (c : ascii) : bool :=
  is_word c || Ascii.eqb c "!" || Ascii.eqb c DQ || Ascii.eqb c "'"
  || Ascii.eqb c "&" || Ascii.eqb c "." || Ascii.eqb c "," || Ascii.eqb c "?".

Definition is_hyphen (c : ascii) : bool := Ascii.eqb c "-".

(** [_munge_whitespace] *)
Definition _munge_whitespace (text : str) : str :=
  let text := expandtabs tabsize text in
  map (fun c => if is_whitespace c then " "%char else c) text.

(** *** [wordsep_re]

    A match is tried at one position of the text: [before] holds the
    characters to its left, the nearest first, and [s] the ones from it
    on.  Each function gives the length of the match of one alternative. *)

Fixpoint span (p : ascii -> bool) (s : str) : nat :=
  match s with
  | c :: s' => if p c then S (span p s') else 0
  | [] => 0
  end.

(** [-{2,}] followed by [\w]: the run of hyphens is taken whole, since
    after a shorter one the next character is a hyphen, not a [\w]. *)
Definition dashes_then_word (s : str) : option nat :=
  let n := span is_hyphen s in
  match skipn n s with
  | c :: _ => if (2 <=? n) && is_word c then Some n else None
  | [] => None
  end.

Definition lookbehind1 (p : ascii -> bool) (before : str) : bool :=
  match before with b :: _ => p b | [] => false end.

(** [[ws]+] *)
Definition match_whitespace (s : str) : option nat :=
  match span is_whitespace s with
  | 0 => None
  | n => Some n
  end.

(** [(?<=wp) -{2,} (?=\w)] *)
Definition match_em_dash (before s : str) : option nat :=
  if lookbehind1 is_word_punct before then dashes_then_word s else None.

(** [-(?: (?<=lt{2}-) | (?<=lt-lt-)) (?= lt -? lt)], tried where the
    lazy run of the word stops: [before] ends the run, [s] follows it. *)
Definition hyphenated (before s : str) : bool :=
  match s with
  | h :: after =>
      is_hyphen h
      && (match before with
          | b1 :: b2 :: more =>
              (is_letter b1 && is_letter b2)
              || (is_letter b1 && is_hyphen b2
                  && match more with b3 :: _ => is_letter b3 | [] => false end)
          | _ => false
          end)
      && (match after with
          | a1 :: a2 :: more =>
              is_letter a1
              && ((is_hyphen a2
                   && match more with a3 :: _ => is_letter a3 | [] => false end)
                  || is_letter a2)
          | _ => false
          end)
  | [] => false
  end.

(** [(?=ws|\Z)] *)
Definition end_of_word (s : str) : bool :=
  match s with
  | c :: _ => is_whitespace c
  | [] => true
  end.

(** [(?<=wp) (?=-{2,}\w)] *)
Definition before_em_dash (before s : str) : bool :=
  lookbehind1 is_word_punct before
  && match dashes_then_word s with Some _ => true | None => false end.

(** [[^ws]+? (?: hyphenated | end of word | em-dash)]: the run grows by
    one character at a time until one of the three endings matches;
    [k] characters are in it already. *)
Fixpoint match_word_from (before s : str) (k : nat) : option nat :=
  match s with
  | [] => None
  | c :: s' =>
      if is_whitespace c then None
      else
        let before' := c :: before in
        if hyphenated before' s' then Some (S (S k))
        else if end_of_word s' then Some (S k)
        else if before_em_dash before' s' then Some (S k)
        else match_word_from before' s' (S k)
  end.

Definition wordsep_match (before s : str) : option nat :=
  match match_whitespace s with
  | Some n => Some n
  | None =>
      match match_em_dash before s with
      | Some n => Some n
      | None => match_word_from before s 0
      end
  end.

(** [wordsep_re.split(text)]: the pattern is one capturing group, so the
    result alternates the text between two matches ([gap], kept in
    reverse while it grows) and the matches.  [skip] counts the
    characters still to pass of the match under way. *)
Fixpoint wordsep_split (before gap : str) (skip : nat) (s : str) : list str :=
  match s with
  | [] => [rev gap]
  | c :: s' =>
      match skip with
      | S k => wordsep_split (c :: before) gap k s'
      | 0 =>
          match wordsep_match before s with
          | Some (S k) =>
              rev gap :: firstn (S k) s :: wordsep_split (c :: before) [] k s'
          | _ => wordsep_split (c :: before) (c :: gap) 0 s'
          end
      end
  end.

(** [_split], with [break_on_hyphens] set. *)
Definition _split (text : str) : list str :=
  let chunks := wordsep_split [] [] 0 text in
  filter truthy chunks.

Definition _split_chunks (text : str) : list str :=
  _split (_munge_whitespace text).

End TextWrap.

Module Wrap.
Import TextWrap.

(** Truth value of a list: [if lines] holds for the non-empty ones. *)
Definition truthy_list (l : list str) : bool :=
  match l with [] => false | _ :: _ => true end.

(** [c.strip() == ''] *)
Definition blank (c : str) : bool := negb (truthy (strip c)).

(** [sum(map(len, cur_line))] *)
Definition total_len (cur_line : list str) : nat :=
  list_sum (map (@length ascii) cur_line).

(** The stack of chunks has its next chunk first ([chunks[-1]] of the
    reversed list of the source); [cur_line] and [lines] have their latest
    entry first, so that [cur_line[-1]] and [lines[-1]] are their heads. *)

(** [''.join(cur_line)] *)
Definition join_line (cur_line : list str) : str := concat (rev cur_line).

(** The inner [while chunks] loop: chunks are moved to the line as long
    as they fit. *)
Fixpoint fill_line (width : nat) (chunks cur_line : list str) (cur_len : nat)
  : list str * list str * nat :=
  match chunks with
  | [] => (chunks, cur_line, cur_len)
  | c :: rest =>
      let l := length c in
      if cur_len + l <=? width
      then fill_line width rest (c :: cur_line) (cur_len + l)
      else (chunks, cur_line, cur_len)
  end.

(** [_handle_long_word], with [break_long_words] and [break_on_hyphens]
    set; it returns the stack and the line it has updated. *)
Definition _handle_long_word (reversed_chunks cur_line : list str)
    (cur_len width : nat) : list str * list str :=
  let space_left := if width <? 1 then 1 else width - cur_len in
  match reversed_chunks with
  | [] => (reversed_chunks, cur_line)
  | chunk :: rest =>
      let end_ :=
        if space_left <? length chunk then
          match rfind "-" space_left chunk with
          | Some hyphen =>
              if (0 <? hyphen)
                 && existsb (fun c => negb (Ascii.eqb c "-")) (firstn hyphen chunk)
              then hyphen + 1
              else space_left
          | None => space_left
          end
        else space_left in
      (skipn end_ chunk :: rest, firstn end_ chunk :: cur_line)
  end.

(** One turn of the outer loop of [_wrap_chunks], up to the test
    [if cur_line]; [started] tells whether [lines] is non-empty. *)
Definition next_line (width : nat) (started : bool) (chunks : list str)
  : list str * list str * nat :=
  (* First chunk on line is whitespace -- drop it, unless this is the
     very beginning of the text. *)
  let chunks :=
    match chunks with
    | c :: rest => if blank c && started then rest else chunks
    | [] => chunks
    end in
  let '(chunks, cur_line, cur_len) := fill_line width chunks [] 0 in
  (* The next chunk is too big to fit on any line. *)
  let '(chunks, cur_line, cur_len) :=
    match chunks with
    | c :: _ =>
        if width <? length c then
          let '(chunks, cur_line) :=
            _handle_long_word chunks cur_line cur_len width in
          (chunks, cur_line, total_len cur_line)
        else (chunks, cur_line, cur_len)
    | [] => (chunks, cur_line, cur_len)
    end in
  (* If the last chunk on this line is all whitespace, drop it. *)
  match cur_line with
  | c :: cur_line' =>
      if blank c then (chunks, cur_line', cur_len - length c)
      else (chunks, cur_line, cur_len)
  | [] => (chunks, cur_line, cur_len)
  end.

(** The test that lets a line through when [max_lines] is set. *)
Definition keeps_line (w : TextWrapper) (lines chunks : list str)
    (cur_len : nat) : bool :=
  match max_lines w with
  | None => true
  | Some m =>
      (length lines + 1 <? m)
      || (match chunks with
          | [] => true
          | [c] => blank c
          | _ => false
          end
          && (cur_len <=? width w))
  end.

(** The [while cur_line] loop that places the placeholder; [None] stands
    for its [else] branch, reached when the line has run empty. *)
Fixpoint place_placeholder (width : nat) (cur_line : list str) (cur_len : nat)
  : option str :=
  match cur_line with
  | [] => None
  | c :: cur_line' =>
      if negb (blank c) && (cur_len + length placeholder <=? width)
      then Some (join_line (placeholder :: cur_line))
      else place_placeholder width cur_line' (cur_len - length c)
  end.

(** The truncation of the last line; the result is the final [lines]. *)
Definition truncate (w : TextWrapper) (lines cur_line : list str)
    (cur_len : nat) : list str :=
  match place_placeholder (width w) cur_line cur_len with
  | Some line => line :: lines
  | None =>
      match lines with
      | last :: lines' =>
          let prev_line := rstrip last in
          if length prev_line + length placeholder <=? width w
          then (prev_line ++ placeholder) :: lines'
          else lstrip placeholder :: lines
      | [] => lstrip placeholder :: lines
      end
  end.

(** The size of the stack: every turn of the outer loop lowers it. *)
Definition stack_size (chunks : list str) : nat :=
  list_sum (map (fun c => S (length c)) chunks).

Lemma stack_size_skipn (n : nat) (c : str) (rest : list str) :
  stack_size (skipn n c :: rest) <= stack_size (c :: rest).
Proof.
  unfold stack_size; simpl. pose proof (length_skipn n c). lia.
Qed.

Lemma stack_size_skipn_lt (n : nat) (c : str) (rest : list str) :
  0 < n -> 0 < length c ->
  stack_size (skipn n c :: rest) < stack_size (c :: rest).
Proof.
  intros Hn Hc. unfold stack_size; simpl.
  pose proof (length_skipn n c). lia.
Qed.

Lemma fill_line_size (width : nat) (chunks cur_line : list str) (cur_len : nat) :
  let '(chunks', cur_line', cur_len') :=
    fill_line width chunks cur_line cur_len in
  stack_size chunks' <= stack_size chunks
  /\ (stack_size chunks' = stack_size chunks ->
      chunks' = chunks /\ cur_line' = cur_line /\ cur_len' = cur_len
      /\ match chunks with
         | c :: _ => width < cur_len + length c
         | [] => True
         end).
Proof.
  revert cur_line cur_len.
  induction chunks as [|c rest IH]; intros cur_line cur_len; simpl.
  - auto.
  - destruct (Nat.leb_spec (cur_len + length c) width) as [Hfit|Hfit].
    + specialize (IH (c :: cur_line) (cur_len + length c)).
      destruct (fill_line width rest (c :: cur_line) (cur_len + length c))
        as [[chunks' cur_line'] n'].
      destruct IH as [IH _]. unfold stack_size in *; simpl in *.
      split; [lia | intros; lia].
    + split; [lia | auto].
Qed.

Lemma _handle_long_word_size (c : str) (rest cur_line : list str)
    (cur_len width : nat) :
  stack_size (fst (_handle_long_word (c :: rest) cur_line cur_len width))
  <= stack_size (c :: rest).
Proof. simpl. apply stack_size_skipn. Qed.

Lemma _handle_long_word_progress (c : str) (rest cur_line : list str)
    (width : nat) :
  width < length c ->
  stack_size (fst (_handle_long_word (c :: rest) cur_line 0 width))
  < stack_size (c :: rest).
Proof.
  intros Hlong. simpl. apply stack_size_skipn_lt; [|lia].
  destruct (Nat.ltb_spec width 1).
  - destruct (1 <? length c);
      [destruct (rfind "-" 1 c) as [h|];
       [destruct (_ && _)|] |]; lia.
  - rewrite Nat.sub_0_r.
    destruct (width <? length c);
      [destruct (rfind "-" width c) as [h|];
       [destruct (_ && _)|] |]; lia.
Qed.

Lemma long_word_step_size (width : nat) (chunks cur_line : list str)
    (cur_len : nat) :
  stack_size
    (fst (fst
      (match chunks with
       | c :: _ =>
           if width <? length c then
             let '(chunks', cur_line') :=
               _handle_long_word chunks cur_line cur_len width in
             (chunks', cur_line', total_len cur_line')
           else (chunks, cur_line, cur_len)
       | [] => (chunks, cur_line, cur_len)
       end)))
  <= stack_size chunks.
Proof.
  destruct chunks as [|c rest]; [reflexivity|].
  destruct (width <? length c); [|reflexivity].
  pose proof (_handle_long_word_size c rest cur_line cur_len width) as Hs.
  destruct (_handle_long_word (c :: rest) cur_line cur_len width). exact Hs.
Qed.

Lemma drop_blank_size (chunks cur_line : list str) (cur_len : nat) :
  fst (fst
    (match cur_line with
     | c :: cur_line' =>
         if blank c then (chunks, cur_line', cur_len - length c)
         else (chunks, cur_line, cur_len)
     | [] => (chunks, cur_line, cur_len)
     end)) = chunks.
Proof. destruct cur_line as [|c cl]; [|destruct (blank c)]; reflexivity. Qed.

Lemma next_line_decreases (width : nat) (started : bool) (c : str)
    (rest : list str) :
  stack_size (fst (fst (next_line width started (c :: rest))))
  < stack_size (c :: rest).
Proof.
  unfold next_line.
  assert (Hrest : stack_size rest < stack_size (c :: rest))
    by (unfold stack_size; simpl; lia).
  destruct (blank c && started).
  - pose proof (fill_line_size width rest [] 0) as Hfill.
    destruct (fill_line width rest [] 0) as [[chunks1 cur_line1] cur_len1].
    destruct Hfill as [Hfill _].
    pose proof (long_word_step_size width chunks1 cur_line1 cur_len1) as Hs.
    destruct (match chunks1 with [] => _ | _ :: _ => _ end)
      as [[chunks2 cur_line2] cur_len2].
    rewrite drop_blank_size. simpl in Hs. lia.
  - pose proof (fill_line_size width (c :: rest) [] 0) as Hfill.
    destruct (fill_line width (c :: rest) [] 0)
      as [[chunks1 cur_line1] cur_len1].
    destruct Hfill as [Hle Heq].
    destruct (Nat.eq_dec (stack_size chunks1) (stack_size (c :: rest)))
      as [Hsame|Hless].
    + destruct (Heq Hsame) as (-> & -> & -> & Hhead). simpl in Hhead.
      assert (Hlong : (width <? length c) = true)
        by (apply Nat.ltb_lt; exact Hhead).
      rewrite Hlong.
      pose proof (_handle_long_word_progress c rest [] width Hhead) as Hp.
      destruct (_handle_long_word (c :: rest) [] 0 width) as [chunks2 cur_line2].
      rewrite drop_blank_size. exact Hp.
    + pose proof (long_word_step_size width chunks1 cur_line1 cur_len1) as Hs.
      destruct (match chunks1 with [] => _ | _ :: _ => _ end)
        as [[chunks2 cur_line2] cur_len2].
      rewrite drop_blank_size. simpl in Hs. lia.
Qed.

(** A value together with the equation that names it, for the proof
    that the recursive calls of the loop go down. *)
Definition inspect {A : Type} (a : A) : {b : A | a = b} := exist _ a eq_refl.

(** The outer [while chunks] loop of [_wrap_chunks]. *)
Equations? wrap_loop (w : TextWrapper) (chunks lines : list str) : list str
  by wf (stack_size chunks) lt :=
  wrap_loop w [] lines := rev lines;
  wrap_loop w (c :: rest) lines
    with inspect (next_line (width w) (truthy_list lines) (c :: rest)) := {
    | exist _ (chunks', [], _) _ := wrap_loop w chunks' lines
    | exist _ (chunks', cur_line, cur_len) _ :=
        if keeps_line w lines chunks' cur_len
        then wrap_loop w chunks' (join_line cur_line :: lines)
        else rev (truncate w lines cur_line cur_len) }.
Proof.
  all: match goal with
       | H : next_line ?a ?b (?c :: ?r) = _ |- _ =>
           pose proof (next_line_decreases a b c r) as Hd;
           rewrite H in Hd; exact Hd
       end.
Qed.

(** The two checks at the head of [_wrap_chunks]: it raises [ValueError]
    when the width is not positive, or when [max_lines] is set and the
    stripped placeholder does not fit the width. *)
Definition raises_ValueError (w : TextWrapper) : bool :=
  (width w <=? 0)
  || match max_lines w with
     | Some _ => width w <? length (lstrip placeholder)
     | None => false
     end.

(** [_wrap_chunks], past those checks. *)
Definition _wrap_chunks (w : TextWrapper) (chunks : list str) : list str :=
  wrap_loop w chunks [].

(** [wrap]; [fix_sentence_endings] is off. *)
Definition wrap (w : TextWrapper) (text : str) : list str :=
  _wrap_chunks w (_split_chunks text).

End Wrap.

(** ** [diagrams/c4/__init__.py] *)

Module C4.
Import TextWrap Wrap.

(** A dictionary of attributes, as built by the builders and as received
    in [**kwargs]. *)
Abbreviation dict := (gmap string str).

(** [d.update(other)]: the entries of [other] replace those of [d]. *)
Definition update (d other : dict) : dict := other ∪ d.

(** The constructors of the drawing library: a node and an edge are made
    from their attributes, a cluster from its label and its graph
    attributes. *)
Inductive node := Node (attrs : dict).
Inductive edge := Edge (attrs : dict).
Inductive cluster := Cluster (label : str) (graph_attr : dict).

Definition node_attrs (n : node) : dict := let 'Node attrs := n in attrs.
Definition edge_attrs (e : edge) : dict := let 'Edge attrs := e in attrs.
Definition cluster_label (c : cluster) : str :=
  let 'Cluster label _ := c in label.
Definition cluster_graph_attr (c : cluster) : dict :=
  let 'Cluster _ graph_attr := c in graph_attr.

(** The opening tag of a font span, [<font point-size="N">]. *)
Definition font (size : string) : str :=
  lit "<font point-size=" ++ [DQ] ++ lit size ++ [DQ] ++ lit ">".

(** [lines += [""] * (3 - len(lines))]: fill up with empty lines so it is
    always three. *)
Definition pad_to_three (lines : list str) : list str :=
  lines ++ repeat [] (3 - length lines).

(** The [lines] of [_format_description], as they are joined. *)
Definition description_lines (description : str) : list str :=
  let wrapper := {| width := 40; max_lines := Some 3 |} in
  let lines := map Html.escape (wrap wrapper description) in
  pad_to_three lines.

Definition _format_description (description : str) : str :=
  join (lit "<br/>") (description_lines description).

Definition _format_node_label (name key description : str) : str :=
  let title :=
    font "12" ++ lit "<b>" ++ Html.escape name ++ lit "</b></font><br/>" in
  let subtitle :=
    if truthy key
    then font "9" ++ lit "[" ++ Html.escape key ++ lit "]<br/></font>"
    else [] in
  let text :=
    if truthy description
    then lit "<br/>" ++ font "10" ++ _format_description description
         ++ lit "</font>"
    else [] in
  lit "<" ++ title ++ subtitle ++ text ++ lit ">".

(** The [lines] of [_format_edge_label], before they are escaped. *)
Definition edge_lines (description : str) : list str :=
  let wrapper := {| width := 24; max_lines := Some 3 |} in
  wrap wrapper description.

Definition _format_edge_label (description : str) : str :=
  let lines := map Html.escape (edge_lines description) in
  let text := join (lit "<br/>") lines in
  lit "<" ++ font "10" ++ text ++ lit "</font>>".

Definition Container (name technology description : str) (kwargs : dict)
  : node :=
  let key :=
    if truthy technology then lit "Container: " ++ technology
    else lit "Container" in
  let node_attributes : dict := list_to_map [
    ("label", _format_node_label name key description);
    ("labelloc", lit "c");
    ("shape", lit "rect");
    ("width", lit "2.6");
    ("height", lit "1.6");
    ("fixedsize", lit "true");
    ("style", lit "filled");
    ("fillcolor", lit "dodgerblue3");
    ("fontcolor", lit "white")] in
  let node_attributes := update node_attributes kwargs in
  Node node_attributes.

Definition Database (name technology description : str) (kwargs : dict)
  : node :=
  let key :=
    if truthy technology then lit "Database: " ++ technology
    else lit "Database" in
  let node_attributes : dict := list_to_map [
    ("label", _format_node_label name key description);
    ("shape", lit "cylinder");
    ("width", lit "2.6");
    ("height", lit "1.6");
    ("fixedsize", lit "true");
    ("style", lit "filled");
    ("fillcolor", lit "dodgerblue3");
    ("fontcolor", lit "white")] in
  let node_attributes := update node_attributes kwargs in
  Node node_attributes.

Definition System (name description : str) (external : bool) (kwargs : dict)
  : node :=
  let key := if external then lit "External System" else lit "System" in
  let node_attributes : dict := list_to_map [
    ("label", _format_node_label name key description);
    ("labelloc", lit "c");
    ("shape", lit "rect");
    ("width", lit "2.6");
    ("height", lit "1.6");
    ("fixedsize", lit "true");
    ("style", lit "filled");
    ("fillcolor", if external then lit "gray60" else lit "dodgerblue4");
    ("fontcolor", lit "white")] in
  (* collapse system boxes to a smaller form if they don't have a
     description *)
  let node_attributes :=
    if negb (truthy description)
    then update node_attributes
           (list_to_map [("width", lit "2"); ("height", lit "1")])
    else node_attributes in
  let node_attributes := update node_attributes kwargs in
  Node node_attributes.

Definition Person (name description : str) (external : bool) (kwargs : dict)
  : node :=
  let key := if external then lit "External Person" else lit "Person" in
  let node_attributes : dict := list_to_map [
    ("label", _format_node_label name key description);
    ("labelloc", lit "c");
    ("shape", lit "rect");
    ("width", lit "2.6");
    ("height", lit "1.6");
    ("fixedsize", lit "true");
    ("style", lit "rounded,filled");
    ("fillcolor", if external then lit "gray60" else lit "dodgerblue4");
    ("fontcolor", lit "white")] in
  (* collapse person boxes to a smaller form if they don't have a
     description *)
  let node_attributes :=
    if negb (truthy description)
    then update node_attributes
           (list_to_map [("width", lit "2"); ("height", lit "1")])
    else node_attributes in
  let node_attributes := update node_attributes kwargs in
  Node node_attributes.

Definition SystemBoundary (name : str) (kwargs : dict) : cluster :=
  let graph_attributes : dict := list_to_map [
    ("label", Html.escape name);
    ("bgcolor", lit "white");
    ("margin", lit "16");
    ("style", lit "dashed")] in
  let graph_attributes := update graph_attributes kwargs in
  Cluster name graph_attributes.

Definition Relationship (label : str) (kwargs : dict) : edge :=
  let edge_attribtues : dict :=
    list_to_map [("style", lit "dashed"); ("color", lit "gray60")] in
  let edge_attribtues :=
    if truthy label
    then update edge_attribtues
           (list_to_map [("label", _format_edge_label label)])
    else edge_attribtues in
  let edge_attribtues := update edge_attribtues kwargs in
  Edge edge_attribtues.

End C4.

(** ** Vocabulary of the properties *)

Module Props.
Import TextWrap Wrap C4.

(** What [html.escape] puts for one character. *)
Definition escape_char (c : ascii) : str :=
  if Ascii.eqb c "&" then lit "&amp;"
  else if Ascii.eqb c "<" then lit "&lt;"
  else if Ascii.eqb c ">" then lit "&gt;"
  else if Ascii.eqb c DQ then lit "&quot;"
  else if Ascii.eqb c "'" then lit "&#x27;"
  else [c].

(** The characters that open or close markup: [<], [>] and the quotes. *)
Definition sensitive (c : ascii) : bool :=
  Ascii.eqb c "<" || Ascii.eqb c ">" || Ascii.eqb c DQ || Ascii.eqb c "'".

Fixpoint starts_with (p s : str) : bool :=
  match p, s with
  | [], _ => true
  | a :: p', b :: s' => Ascii.eqb a b && starts_with p' s'
  | _ :: _, [] => false
  end.

(** One of the five character references that [html.escape] writes. *)
Definition entity_here (s : str) : bool :=
  starts_with (lit "&amp;") s || starts_with (lit "&lt;") s
  || starts_with (lit "&gt;") s || starts_with (lit "&quot;") s
  || starts_with (lit "&#x27;") s.

(** Every [&] of the text opens a character reference. *)
Fixpoint ampersands_escaped (s : str) : bool :=
  match s with
  | [] => true
  | c :: s' =>
      (if Ascii.eqb c "&" then entity_here s else true)
      && ampersands_escaped s'
  end.

(** Text that is safe inside a label: no markup character stands in
    it but in escaped form. *)
Definition escaped_text (s : str) : bool :=
  forallb (fun c => negb (sensitive c)) s && ampersands_escaped s.

(** The number of [<] in a text: in a label, the number of its tags. *)
Definition tag_count (s : str) : nat := count_occ ascii_dec s "<"%char.

(** [x] occurs in [s]. *)
Fixpoint occurs (x s : str) : bool :=
  starts_with x s
  || match s with
     | [] => false
     | _ :: s' => occurs x s'
     end.

(** A line of a label holds no tag, and so no line break of its own. *)
Definition one_line (l : str) : Prop := ~ In "<"%char l.

(** The label ends with a description body that shows exactly three
    lines: a span in the small font holding three lines set apart by two
    line breaks. *)
Definition three_line_body (label : str) : Prop :=
  exists head l1 l2 l3,
    label = head ++ lit "<br/>" ++ font "10"
              ++ l1 ++ lit "<br/>" ++ l2 ++ lit "<br/>" ++ l3
              ++ lit "</font>>"
    /\ one_line l1 /\ one_line l2 /\ one_line l3.

(** [s] ends with [x]. *)
Definition ends_with (x s : str) : Prop := exists head, s = head ++ x.

(** The four node builders, called on the same arguments. *)
Definition node_calls (name technology description : str) (external : bool)
    (kwargs : dict) : list node :=
  [ Person name description external kwargs;
    System name description external kwargs;
    Container name technology description kwargs;
    Database name technology description kwargs ].

(** The attribute of a node, by its name. *)
Definition attr (n : node) (k : string) : option str := node_attrs n !! k.

(** The wrappers of the source, and the one that does not truncate. *)
Definition node_wrapper : TextWrapper := {| width := 40; max_lines := Some 3 |}.
Definition edge_wrapper : TextWrapper := {| width := 24; max_lines := Some 3 |}.
Definition unlimited (width : nat) : TextWrapper :=
  {| width := width; max_lines := None |}.

(** The ellipsis marker: the placeholder, without its leading blank. *)
Definition marker : str := lstrip placeholder.

(** How the wrapper of three lines cuts a text that takes more: [u1],
    [u2] and [u3] are the first three lines of the text wrapped without a
    limit.  The placeholder follows a part of the third line, or stands
    alone on it, or moves up to the end of the second. *)
Inductive truncated (u1 u2 u3 : str) : list str -> Prop :=
| cut_third (p q : str) :
    p <> [] -> u3 = p ++ q ->
    truncated u1 u2 u3 [u1; u2; p ++ placeholder]
| marker_alone :
    truncated u1 u2 u3 [u1; u2; marker]
| cut_second :
    truncated u1 u2 u3 [u1; rstrip u2 ++ placeholder].

(** What is left to wrap after the last line that [max_lines] lets
    through: nothing, or one blank chunk. *)
Definition spent (chunks : list str) : Prop :=
  chunks = [] \/ exists c, chunks = [c] /\ blank c = true.

(** The length that the loop keeps in [cur_len] is the length of the
    line, and stays within the width. *)
Definition measured (width : nat) (cur_line : list str) (cur_len : nat) : Prop :=
  cur_len = total_len cur_line /\ cur_len <= width.

(** Every line is within the width. *)
Definition fits (width : nat) (lines : list str) : Prop :=
  Forall (fun l : str => length l <= width) lines.

(** A text without markup characters: no [<], [>], quote or [&]. *)
Definition plain (s : str) : bool :=
  forallb (fun c => negb (sensitive c) && negb (Ascii.eqb c "&")) s.

(** The white space of the text is made of spaces: no tab, no line break. *)
Definition spaces_only (s : str) : bool :=
  forallb (fun c => negb (is_whitespace c) || Ascii.eqb c " ") s.

(** The text is not empty and does not end with white space. *)
Definition ends_in_text (s : str) : bool :=
  match rev s with
  | x :: _ => negb (isspace x)
  | [] => false
  end.

(** The text holds nothing but white space. *)
Definition all_whitespace (s : str) : bool := forallb is_whitespace s.

End Props.

(** ** Facts about [html.escape] *)

Module HtmlFacts.
Import Props.

Ltac each_char c := destruct c as [[] [] [] [] [] [] [] []].

Lemma replace_app (old : ascii) (new a b : str) :
  replace old new (a ++ b) = replace old new a ++ replace old new b.
Proof.
  induction a as [|x a IH]; simpl; [reflexivity|].
  rewrite IH, <- app_assoc. reflexivity.
Qed.

Lemma escape_app (a b : str) :
  Html.escape (a ++ b) = Html.escape a ++ Html.escape b.
Proof. unfold Html.escape. rewrite !replace_app. reflexivity. Qed.

Lemma escape_single (c : ascii) : Html.escape [c] = escape_char c.
Proof. each_char c; reflexivity. Qed.

Lemma escape_cons (c : ascii) (s : str) :
  Html.escape (c :: s) = escape_char c ++ Html.escape s.
Proof.
  change (c :: s) with ([c] ++ s). rewrite escape_app, escape_single.
  reflexivity.
Qed.

(** The five replacements in a row amount to one pass over the text. *)
Lemma escape_flat_map (s : str) : Html.escape s = flat_map escape_char s.
Proof.
  induction s as [|c s IH]; [reflexivity|].
  rewrite escape_cons, IH. reflexivity.
Qed.

Lemma escape_char_not_sensitive (c : ascii) :
  forallb (fun x => negb (sensitive x)) (escape_char c) = true.
Proof. each_char c; reflexivity. Qed.

Lemma escape_not_sensitive (s : str) :
  forallb (fun x => negb (sensitive x)) (Html.escape s) = true.
Proof.
  induction s as [|c s IH]; [reflexivity|].
  rewrite escape_cons, forallb_app, escape_char_not_sensitive, IH.
  reflexivity.
Qed.

Lemma escape_char_ampersand (c : ascii) (t : str) :
  ampersands_escaped (escape_char c ++ t) = ampersands_escaped t.
Proof. each_char c; reflexivity. Qed.

Lemma escape_ampersands (s : str) : ampersands_escaped (Html.escape s) = true.
Proof.
  induction s as [|c s IH]; [reflexivity|].
  rewrite escape_cons, escape_char_ampersand. exact IH.
Qed.

Lemma escape_escaped_text (s : str) : escaped_text (Html.escape s) = true.
Proof.
  unfold escaped_text.
  rewrite escape_not_sensitive, escape_ampersands. reflexivity.
Qed.

Lemma escaped_text_one_line (s : str) : escaped_text s = true -> one_line s.
Proof.
  unfold escaped_text, one_line. intros H Hin.
  apply andb_prop in H. destruct H as [H _].
  rewrite forallb_forall in H. specialize (H _ Hin). discriminate H.
Qed.

Lemma escape_one_line (s : str) : one_line (Html.escape s).
Proof. apply escaped_text_one_line, escape_escaped_text. Qed.

Lemma escape_placeholder (p : str) :
  Html.escape (p ++ TextWrap.placeholder) = Html.escape p ++ TextWrap.placeholder.
Proof. rewrite escape_app. reflexivity. Qed.

End HtmlFacts.

(** ** Facts about the wrapping loop *)

Module WrapFacts.
Import TextWrap Wrap Props.

(** The loop, one turn unfolded. *)
Lemma wrap_loop_unfold (w : TextWrapper) (c : str) (rest lines : list str) :
  wrap_loop w (c :: rest) lines =
  let '(chunks', cur_line, cur_len) :=
    next_line (width w) (truthy_list lines) (c :: rest) in
  match cur_line with
  | [] => wrap_loop w chunks' lines
  | _ :: _ =>
      if keeps_line w lines chunks' cur_len
      then wrap_loop w chunks' (join_line cur_line :: lines)
      else rev (truncate w lines cur_line cur_len)
  end.
Proof.
  rewrite wrap_loop_equation_2.
  generalize (inspect (next_line (width w) (truthy_list lines) (c :: rest))).
  intros [[[chunks' cur_line] cur_len] e].
  destruct cur_line.
  - rewrite wrap_loop_clause_2_equation_1, e. reflexivity.
  - rewrite wrap_loop_clause_2_equation_2, e. reflexivity.
Qed.

(** Induction on the size of the stack of chunks. *)
Lemma stack_induction (P : list str -> Prop) :
  (forall chunks,
      (forall chunks', stack_size chunks' < stack_size chunks -> P chunks') ->
      P chunks) ->
  forall chunks, P chunks.
Proof.
  intros step chunks.
  induction chunks as [chunks IH]
    using (well_founded_induction (well_founded_ltof _ stack_size)).
  apply step. exact IH.
Qed.

Lemma blank_nil : blank [] = true.
Proof. reflexivity. Qed.

Lemma not_blank_not_nil (c : str) : blank c = false -> c <> [].
Proof. intros H ->. discriminate H. Qed.

(** A stack that holds nothing but one blank chunk gives no line once the
    text has started. *)
Lemma next_line_blank_only (width : nat) (c : str) :
  blank c = true -> next_line width true [c] = ([], [], 0).
Proof. intros H. unfold next_line. rewrite H. reflexivity. Qed.

Lemma next_line_nil (width : nat) (started : bool) :
  next_line width started [] = ([], [], 0).
Proof. reflexivity. Qed.

Lemma keeps_line_spent (chunks : list str) :
  match chunks with
  | [] => true
  | [c] => blank c
  | _ => false
  end = true -> spent chunks.
Proof.
  destruct chunks as [|c [|c' rest]]; intros H; try discriminate H.
  - left; reflexivity.
  - right; exists c; auto.
Qed.

Lemma wrap_loop_spent (w : TextWrapper) (chunks lines : list str) :
  spent chunks -> lines <> [] -> wrap_loop w chunks lines = rev lines.
Proof.
  intros [->|(c & -> & Hc)] Hlines.
  - apply wrap_loop_equation_1.
  - rewrite wrap_loop_unfold.
    destruct lines as [|l lines]; [contradiction|]. simpl truthy_list.
    rewrite (next_line_blank_only _ _ Hc). apply wrap_loop_equation_1.
Qed.

Lemma truncate_length (w : TextWrapper) (lines cur_line : list str)
    (cur_len : nat) :
  length (truncate w lines cur_line cur_len) <= S (length lines).
Proof.
  unfold truncate.
  destruct (place_placeholder (width w) cur_line cur_len); [simpl; lia|].
  destruct lines as [|l lines]; [simpl; lia|].
  destruct (_ <=? _); simpl; lia.
Qed.

(** With [max_lines] set to [m], the loop gives at most [m] lines. *)
Lemma wrap_loop_length (w : TextWrapper) (m : nat) :
  max_lines w = Some m ->
  forall chunks lines,
    length lines < m \/ (length lines = m /\ lines <> [] /\ spent chunks) ->
    length (wrap_loop w chunks lines) <= m.
Proof.
  intros Hm chunks. induction chunks as [chunks IH] using stack_induction.
  intros lines Hinv. destruct chunks as [|c rest].
  - rewrite wrap_loop_equation_1, length_rev.
    destruct Hinv as [H|[H _]]; lia.
  - rewrite wrap_loop_unfold.
    pose proof (next_line_decreases (width w) (truthy_list lines) c rest) as Hdec.
    destruct Hinv as [Hlt|(Hlen & Hne & Hspent)].
    + destruct (next_line (width w) (truthy_list lines) (c :: rest))
        as [[chunks' cur_line] cur_len]. simpl in Hdec.
      destruct cur_line as [|x cur_line'].
      * apply IH; [exact Hdec | left; exact Hlt].
      * destruct (keeps_line w lines chunks' cur_len) eqn:Hkeep.
        -- apply IH; [exact Hdec|]. unfold keeps_line in Hkeep.
           rewrite Hm in Hkeep. apply orb_prop in Hkeep.
           destruct Hkeep as [Hk|Hk].
           ++ left. apply Nat.ltb_lt in Hk. simpl. lia.
           ++ apply andb_prop in Hk. destruct Hk as [Hk _].
              apply keeps_line_spent in Hk.
              destruct (Nat.eq_dec (S (length lines)) m) as [E|E].
              ** right. simpl. split; [exact E|]. split; [discriminate|exact Hk].
              ** left. simpl. lia.
        -- rewrite length_rev.
           pose proof (truncate_length w lines (x :: cur_line') cur_len). lia.
    + destruct lines as [|l lines]; [contradiction|].
      destruct Hspent as [E|(c0 & E & Hc0)]; [discriminate E|].
      injection E as -> ->. simpl truthy_list.
      rewrite (next_line_blank_only _ _ Hc0).
      rewrite wrap_loop_equation_1, length_rev. lia.
Qed.

(** [wrap] with [max_lines=3] returns at most three lines. *)
Lemma wrap_at_most_three (width : nat) (text : str) :
  length (wrap {| width := width; max_lines := Some 3 |} text) <= 3.
Proof.
  unfold wrap, _wrap_chunks.
  apply (wrap_loop_length _ 3); [reflexivity | left; simpl; lia].
Qed.

(** *** No line is longer than the width *)

Lemma length_concat_sum (l : list str) :
  length (concat l) = list_sum (map (@length ascii) l).
Proof.
  induction l as [|x l IH]; simpl; [reflexivity|].
  rewrite length_app, IH. reflexivity.
Qed.

Lemma list_sum_rev (l : list nat) : list_sum (rev l) = list_sum l.
Proof.
  induction l as [|x l IH]; simpl; [reflexivity|].
  rewrite list_sum_app, IH. simpl. lia.
Qed.

Lemma length_join_line (cur_line : list str) :
  length (join_line cur_line) = total_len cur_line.
Proof.
  unfold join_line, total_len.
  rewrite length_concat_sum, map_rev, list_sum_rev. reflexivity.
Qed.

Lemma total_len_cons (c : str) (cur_line : list str) :
  total_len (c :: cur_line) = length c + total_len cur_line.
Proof. reflexivity. Qed.

Lemma fill_line_measured (width : nat) (chunks cur_line : list str)
    (cur_len : nat) :
  measured width cur_line cur_len ->
  let '(_, cur_line', cur_len') := fill_line width chunks cur_line cur_len in
  measured width cur_line' cur_len'.
Proof.
  revert cur_line cur_len.
  induction chunks as [|c rest IH]; intros cur_line cur_len H; simpl.
  - exact H.
  - destruct (Nat.leb_spec (cur_len + length c) width) as [Hfit|Hfit].
    + apply IH. destruct H as [H1 H2]. split; [|exact Hfit].
      rewrite total_len_cons. lia.
    + exact H.
Qed.

Lemma find_last_bound (c : ascii) (s : str) (i j : nat) :
  find_last c s i = Some j -> i <= j < i + length s.
Proof.
  revert i. induction s as [|x s IH]; intros i H; simpl in H.
  - discriminate H.
  - destruct (find_last c s (S i)) as [k|] eqn:E.
    + injection H as ->. apply IH in E. simpl. lia.
    + destruct (Ascii.eqb x c); [|discriminate H].
      injection H as ->. simpl. lia.
Qed.

Lemma rfind_bound (c : ascii) (stop : nat) (s : str) (j : nat) :
  rfind c stop s = Some j -> j < stop.
Proof.
  unfold rfind. intros H. apply find_last_bound in H.
  rewrite length_firstn in H. lia.
Qed.

Lemma _handle_long_word_measured (c : str) (rest cur_line : list str)
    (cur_len width : nat) :
  1 <= width -> measured width cur_line cur_len ->
  let cur_line' := snd (_handle_long_word (c :: rest) cur_line cur_len width) in
  measured width cur_line' (total_len cur_line').
Proof.
  intros Hw [Hlen Hle]. simpl. split; [reflexivity|].
  rewrite total_len_cons, length_firstn.
  destruct (Nat.ltb_spec width 1) as [Hlt|_]; [lia|].
  assert (Hend :
    (if width - cur_len <? length c
     then match rfind "-" (width - cur_len) c with
          | Some hyphen =>
              if (0 <? hyphen)
                 && existsb (fun x => negb (Ascii.eqb x "-")) (firstn hyphen c)
              then hyphen + 1
              else width - cur_len
          | None => width - cur_len
          end
     else width - cur_len) <= width - cur_len).
  { destruct (_ <? length c); [|lia].
    destruct (rfind "-" (width - cur_len) c) as [h|] eqn:E; [|lia].
    apply rfind_bound in E. destruct (_ && _); lia. }
  lia.
Qed.

Lemma next_line_measured (width : nat) (started : bool) (chunks : list str) :
  1 <= width ->
  let '(_, cur_line, cur_len) := next_line width started chunks in
  measured width cur_line cur_len.
Proof.
  intros Hw. unfold next_line.
  set (chunks0 := match chunks with
                  | [] => chunks
                  | c :: rest => if blank c && started then rest else chunks
                  end).
  clearbody chunks0.
  assert (H0 : measured width [] 0) by (split; [reflexivity | lia]).
  pose proof (fill_line_measured width chunks0 [] 0 H0) as Hfill.
  destruct (fill_line width chunks0 [] 0) as [[chunks1 cur_line1] cur_len1].
  assert (Hlong :
    let '(_, cur_line, cur_len) :=
      match chunks1 with
      | c :: _ =>
          if width <? length c then
            let '(chunks, cur_line) :=
              _handle_long_word chunks1 cur_line1 cur_len1 width in
            (chunks, cur_line, total_len cur_line)
          else (chunks1, cur_line1, cur_len1)
      | [] => (chunks1, cur_line1, cur_len1)
      end in
    measured width cur_line cur_len).
  { destruct chunks1 as [|c1 rest1]; [exact Hfill|].
    destruct (width <? length c1); [|exact Hfill].
    pose proof (_handle_long_word_measured c1 rest1 cur_line1 cur_len1 width
                  Hw Hfill) as Hh.
    destruct (_handle_long_word (c1 :: rest1) cur_line1 cur_len1 width).
    exact Hh. }
  destruct (match chunks1 with [] => _ | _ :: _ => _ end)
    as [[chunks2 cur_line2] cur_len2].
  destruct cur_line2 as [|c2 cur_line2']; [exact Hlong|].
  destruct (blank c2); [|exact Hlong].
  destruct Hlong as [H1 H2]. rewrite total_len_cons in H1.
  split; lia.
Qed.

Lemma place_placeholder_length (width : nat) (cur_line : list str)
    (cur_len : nat) (line : str) :
  cur_len = total_len cur_line ->
  place_placeholder width cur_line cur_len = Some line ->
  length line <= width.
Proof.
  revert cur_len. induction cur_line as [|c cur_line IH]; intros cur_len Hlen H.
  - discriminate H.
  - cbn [place_placeholder] in H.
    destruct (negb (blank c) && (cur_len + length placeholder <=? width)) eqn:E.
    + injection H as <-. apply andb_prop in E. destruct E as [_ E].
      apply Nat.leb_le in E.
      rewrite length_join_line, total_len_cons, <- Hlen. lia.
    + apply (IH (cur_len - length c)); [|exact H].
      rewrite total_len_cons in Hlen. lia.
Qed.

Lemma truncate_fits (w : TextWrapper) (lines cur_line : list str)
    (cur_len : nat) :
  length (lstrip placeholder) <= width w ->
  cur_len = total_len cur_line ->
  fits (width w) lines ->
  fits (width w) (truncate w lines cur_line cur_len).
Proof.
  intros Hph Hlen Hlines. unfold truncate.
  destruct (place_placeholder (width w) cur_line cur_len) as [line|] eqn:E.
  - constructor; [|exact Hlines].
    exact (place_placeholder_length _ _ _ _ Hlen E).
  - destruct lines as [|l lines].
    + constructor; [exact Hph | constructor].
    + destruct (Nat.leb_spec (length (rstrip l) + length placeholder) (width w))
        as [Hfit|Hfit].
      * inversion Hlines; subst. constructor; [|assumption].
        rewrite length_app. exact Hfit.
      * constructor; [exact Hph | exact Hlines].
Qed.

Lemma fits_rev (width : nat) (lines : list str) :
  fits width lines -> fits width (rev lines).
Proof. apply Forall_rev. Qed.

(** Past the two checks of [_wrap_chunks], every line of the result is
    within the width. *)
Lemma wrap_loop_fits (w : TextWrapper) :
  raises_ValueError w = false ->
  forall chunks lines,
    fits (width w) lines -> fits (width w) (wrap_loop w chunks lines).
Proof.
  intros Hok chunks. induction chunks as [chunks IH] using stack_induction.
  intros lines Hlines. destruct chunks as [|c rest].
  - rewrite wrap_loop_equation_1. apply fits_rev, Hlines.
  - unfold raises_ValueError in Hok. apply orb_false_elim in Hok.
    destruct Hok as [Hw Hph]. apply Nat.leb_gt in Hw.
    rewrite wrap_loop_unfold.
    pose proof (next_line_decreases (width w) (truthy_list lines) c rest) as Hdec.
    pose proof (next_line_measured (width w) (truthy_list lines) (c :: rest) Hw)
      as Hm.
    destruct (next_line (width w) (truthy_list lines) (c :: rest))
      as [[chunks' cur_line] cur_len]. simpl in Hdec.
    destruct cur_line as [|x cur_line'].
    + apply IH; assumption.
    + destruct Hm as [Hlen Hle].
      destruct (keeps_line w lines chunks' cur_len) eqn:Hkeep.
      * apply IH; [exact Hdec|]. constructor; [|exact Hlines].
        rewrite length_join_line, <- Hlen. exact Hle.
      * apply fits_rev, truncate_fits; try assumption.
        unfold keeps_line in Hkeep.
        destruct (max_lines w); [|discriminate Hkeep].
        apply Nat.ltb_ge in Hph. exact Hph.
Qed.

(** Neither wrapper of the source fails the checks. *)
Lemma wrappers_pass_checks :
  raises_ValueError node_wrapper = false
  /\ raises_ValueError edge_wrapper = false.
Proof. split; reflexivity. Qed.

Lemma wrap_fits (w : TextWrapper) (text : str) :
  raises_ValueError w = false -> fits (width w) (wrap w text).
Proof.
  intros Hok. unfold wrap, _wrap_chunks.
  apply wrap_loop_fits; [exact Hok | constructor].
Qed.

(** *** Truncation *)

Lemma keeps_line_unlimited (width : nat) (lines chunks : list str) (n : nat) :
  keeps_line (unlimited width) lines chunks n = true.
Proof. reflexivity. Qed.

(** Without a limit, the lines that are set stay as they are. *)
Lemma unlimited_prefix (width : nat) (chunks lines : list str) :
  exists tail, wrap_loop (unlimited width) chunks lines = rev lines ++ tail.
Proof.
  revert lines. induction chunks as [chunks IH] using stack_induction.
  intros lines. destruct chunks as [|c rest].
  - exists []. rewrite wrap_loop_equation_1, app_nil_r. reflexivity.
  - rewrite wrap_loop_unfold. cbn [TextWrap.width unlimited].
    pose proof (next_line_decreases width (truthy_list lines) c rest) as Hdec.
    destruct (next_line width (truthy_list lines) (c :: rest))
      as [[chunks' cur_line] cur_len]. simpl in Hdec.
    destruct cur_line as [|x cur_line'].
    + apply IH, Hdec.
    + rewrite keeps_line_unlimited.
      destruct (IH chunks' Hdec (join_line (x :: cur_line') :: lines))
        as [tail Htail].
      exists (join_line (x :: cur_line') :: tail).
      rewrite Htail. simpl. rewrite <- app_assoc. reflexivity.
Qed.

Lemma join_line_cons (c : str) (cur_line : list str) :
  join_line (c :: cur_line) = join_line cur_line ++ c.
Proof.
  unfold join_line. simpl. rewrite concat_app. simpl.
  rewrite app_nil_r. reflexivity.
Qed.

(** The placeholder goes after a non-empty part of the line. *)
Lemma place_placeholder_spec (width : nat) (cur_line : list str)
    (cur_len : nat) (line : str) :
  place_placeholder width cur_line cur_len = Some line ->
  exists p q, p <> [] /\ join_line cur_line = p ++ q /\ line = p ++ placeholder.
Proof.
  revert cur_len. induction cur_line as [|c cur_line IH]; intros cur_len H.
  - discriminate H.
  - cbn [place_placeholder] in H.
    destruct (negb (blank c) && (cur_len + length placeholder <=? width)) eqn:E.
    + injection H as <-. apply andb_prop in E. destruct E as [E _].
      apply negb_true_iff, not_blank_not_nil in E.
      exists (join_line (c :: cur_line)), []. split; [|split].
      * rewrite join_line_cons. intros Hnil.
        apply app_eq_nil in Hnil. destruct Hnil as [_ Hnil]. contradiction.
      * rewrite app_nil_r. reflexivity.
      * apply join_line_cons.
    + destruct (IH _ H) as (p & q & Hp & Hjoin & Hline).
      exists p, (q ++ c). split; [exact Hp|]. split; [|exact Hline].
      rewrite join_line_cons, Hjoin, <- app_assoc. reflexivity.
Qed.

(** When the text wrapped without a limit has a fourth line, the wrapper
    of three lines cuts it in one of the three ways of [truncated]. *)
Lemma wrap_loop_truncated (width : nat) (chunks lines : list str) :
  length lines <= 2 ->
  forall u1 u2 u3 u4 more,
    wrap_loop (unlimited width) chunks lines = u1 :: u2 :: u3 :: u4 :: more ->
    truncated u1 u2 u3
      (wrap_loop {| TextWrap.width := width; max_lines := Some 3 |} chunks lines).
Proof.
  revert lines. induction chunks as [chunks IH] using stack_induction.
  intros lines Hlen u1 u2 u3 u4 more HU. destruct chunks as [|c rest].
  - rewrite wrap_loop_equation_1 in HU.
    apply (f_equal (@length str)) in HU. rewrite length_rev in HU.
    simpl in HU. lia.
  - rewrite wrap_loop_unfold in HU. rewrite wrap_loop_unfold.
    cbn [TextWrap.width unlimited] in *.
    pose proof (next_line_decreases width (truthy_list lines) c rest) as Hdec.
    destruct (next_line width (truthy_list lines) (c :: rest))
      as [[chunks' cur_line] cur_len]. simpl in Hdec.
    destruct cur_line as [|x cur_line'].
    + apply (IH chunks' Hdec lines Hlen u1 u2 u3 u4 more HU).
    + rewrite keeps_line_unlimited in HU.
      set (line := join_line (x :: cur_line')) in *.
      unfold keeps_line. cbn [max_lines TextWrap.width].
      destruct (Nat.ltb_spec (length lines + 1) 3) as [Hroom|Hfull].
      * cbn [orb]. apply (IH chunks' Hdec (line :: lines)) with (u4 := u4) (more := more);
          [simpl; lia | exact HU].
      * cbn [orb].
        destruct (match chunks' with
                  | [] => true
                  | [c0] => blank c0
                  | _ => false
                  end) eqn:Hspent.
        -- exfalso. apply keeps_line_spent in Hspent.
           rewrite (wrap_loop_spent _ _ _ Hspent) in HU by discriminate.
           apply (f_equal (@length str)) in HU. rewrite length_rev in HU.
           simpl in HU. lia.
        -- cbn [andb].
           destruct lines as [|l2 [|l1 [|l0 lines']]]; simpl in Hlen, Hfull;
             try lia.
           destruct (unlimited_prefix width chunks' [line; l2; l1])
             as [tail Htail].
           rewrite Htail in HU. simpl in HU.
           injection HU as <- <- <- _.
           unfold truncate. cbn [TextWrap.width].
           destruct (place_placeholder width (x :: cur_line') cur_len)
             as [cut|] eqn:Hplace.
           ++ destruct (place_placeholder_spec _ _ _ _ Hplace)
                as (p & q & Hp & Hjoin & ->).
              simpl. apply (cut_third _ _ _ p q); assumption.
           ++ destruct (length (rstrip l2) + length placeholder <=? width).
              ** simpl. apply cut_second.
              ** simpl. apply marker_alone.
Qed.

End WrapFacts.

(** ** Facts about the dictionaries of the builders *)

Module DictFacts.
Import C4 Props.

Lemma lookup_update (d other : dict) (k : string) :
  update d other !! k =
  match other !! k with
  | Some v => Some v
  | None => d !! k
  end.
Proof.
  unfold update. rewrite lookup_union.
  destruct (other !! k), (d !! k); reflexivity.
Qed.

Lemma lookup_update_Some (d other : dict) (k : string) (v : str) :
  other !! k = Some v -> update d other !! k = Some v.
Proof. intros H. rewrite lookup_update, H. reflexivity. Qed.

Lemma lookup_update_None (d other : dict) (k : string) :
  other !! k = None -> update d other !! k = d !! k.
Proof. intros H. rewrite lookup_update, H. reflexivity. Qed.

(** A lookup in the result of a builder: the overrides decide first,
    then the dictionary that the builder has computed. *)
Ltac lookup_literal :=
  rewrite ?list_to_map_cons, ?list_to_map_nil;
  repeat (rewrite lookup_insert_eq || rewrite lookup_insert_ne by discriminate);
  rewrite ?lookup_empty.

Ltac lookup_attr :=
  unfold attr, Person, System, Container, Database;
  cbn [node_attrs];
  rewrite ?lookup_update;
  repeat match goal with
         | H : ?kw !! ?k = _ |- context [?kw !! ?k] => rewrite H
         end;
  try match goal with
      | |- context [negb (truthy ?d)] => is_var d; destruct d
      end;
  cbn [truthy negb];
  rewrite ?lookup_update;
  lookup_literal;
  reflexivity.

End DictFacts.

(** ** The builders *)

Module BuilderFacts.
Import C4 Props DictFacts.

(** The [label] attribute of the four node builders: the override of the
    caller when there is one, and else the formatted label with the key of
    the builder. *)
Lemma node_label_attrs (name technology description : str) (external : bool)
    (kwargs : dict) :
  attr (Container name technology description kwargs) "label"
  = Some (default
            (_format_node_label name
               (if truthy technology then lit "Container: " ++ technology
                else lit "Container") description)
            (kwargs !! "label"))
  /\ attr (Database name technology description kwargs) "label"
     = Some (default
               (_format_node_label name
                  (if truthy technology then lit "Database: " ++ technology
                   else lit "Database") description)
               (kwargs !! "label"))
  /\ attr (System name description external kwargs) "label"
     = Some (default
               (_format_node_label name
                  (if external then lit "External System" else lit "System")
                  description)
               (kwargs !! "label"))
  /\ attr (Person name description external kwargs) "label"
     = Some (default
               (_format_node_label name
                  (if external then lit "External Person" else lit "Person")
                  description)
               (kwargs !! "label")).
Proof.
  destruct (kwargs !! "label") as [v|] eqn:H; cbn [default];
    repeat split; lookup_attr.
Qed.

(** C6. Whatever key a caller overrides, every builder returns a
    descriptor that maps the key to the caller's value: the overrides are
    merged last, after the computed attributes and after the collapse of the
    boxes without a description. *)
Theorem overrides_win (name technology description label : str)
    (external : bool) (kwargs : dict) (k : string) (v : str) :
  kwargs !! k = Some v ->
  Forall (fun n => attr n k = Some v)
    (node_calls name technology description external kwargs)
  /\ cluster_graph_attr (SystemBoundary name kwargs) !! k = Some v
  /\ edge_attrs (Relationship label kwargs) !! k = Some v.
Proof.
  intros H. split; [|split].
  - repeat constructor; apply lookup_update_Some, H.
  - apply lookup_update_Some, H.
  - apply lookup_update_Some, H.
Qed.

(** [Container(name="API", fillcolor="red")] has the fill colour red, not
    the default accent colour. *)
Lemma overrides_win_witness :
  let kwargs : dict := {[ "fillcolor" := lit "red" ]} in
  kwargs !! "fillcolor" = Some (lit "red")
  /\ (Forall (fun n => attr n "fillcolor" = Some (lit "red"))
        (node_calls (lit "API") [] [] false kwargs)
      /\ cluster_graph_attr (SystemBoundary (lit "API") kwargs) !! "fillcolor"
         = Some (lit "red")
      /\ edge_attrs (Relationship [] kwargs) !! "fillcolor" = Some (lit "red")).
Proof.
  split; [reflexivity|].
  apply (overrides_win (lit "API") [] [] [] false
           {[ "fillcolor" := lit "red" ]} "fillcolor" (lit "red")).
  reflexivity.
Defined.

Example Container_API_red :
  attr (Container (lit "API") [] [] {[ "fillcolor" := lit "red" ]}) "fillcolor"
    = Some (lit "red")
  /\ attr (Container (lit "API") [] [] ∅) "fillcolor"
    = Some (lit "dodgerblue3").
Proof. split; reflexivity. Qed.

(** C9. Without an override of [labelloc], the descriptor of [Database]
    has no [labelloc] attribute, while [Container], [System] and [Person]
    set it to [c]. *)
Theorem labelloc_default (name technology description : str)
    (external : bool) (kwargs : dict) :
  kwargs !! "labelloc" = None ->
  attr (Database name technology description kwargs) "labelloc" = None
  /\ attr (Container name technology description kwargs) "labelloc"
     = Some (lit "c")
  /\ attr (System name description external kwargs) "labelloc" = Some (lit "c")
  /\ attr (Person name description external kwargs) "labelloc" = Some (lit "c").
Proof.
  intros H. repeat split; lookup_attr.
Qed.

Lemma labelloc_default_witness :
  (∅ : dict) !! "labelloc" = None
  /\ (attr (Database (lit "Orders DB") (lit "Postgres") [] ∅) "labelloc" = None
      /\ attr (Container (lit "Orders DB") (lit "Postgres") [] ∅) "labelloc"
         = Some (lit "c")
      /\ attr (System (lit "Orders DB") [] true ∅) "labelloc" = Some (lit "c")
      /\ attr (Person (lit "Orders DB") [] true ∅) "labelloc" = Some (lit "c")).
Proof.
  split; [reflexivity|].
  apply (labelloc_default (lit "Orders DB") (lit "Postgres") [] true ∅).
  reflexivity.
Defined.

(** C10. [SystemBoundary] hands the name as it is to the cluster, as its
    identifier; the escaped name goes into the [label] entry of the graph
    attributes alone, where an override of [label] replaces it; no other
    entry depends on the name. *)
Theorem boundary_identifier (name name' : str) (kwargs : dict) :
  cluster_label (SystemBoundary name kwargs) = name
  /\ cluster_graph_attr (SystemBoundary name kwargs) !! "label"
     = Some (match kwargs !! "label" with
             | Some v => v
             | None => Html.escape name
             end)
  /\ delete "label" (cluster_graph_attr (SystemBoundary name kwargs))
     = delete "label" (cluster_graph_attr (SystemBoundary name' kwargs)).
Proof.
  split; [reflexivity|]. split.
  - unfold SystemBoundary. cbn [cluster_graph_attr].
    rewrite lookup_update. destruct (kwargs !! "label"); reflexivity.
  - apply map_eq. intros k. destruct (decide (k = "label")) as [->|Hk].
    + rewrite !lookup_delete_eq. reflexivity.
    + rewrite !lookup_delete_ne by congruence.
      unfold SystemBoundary. cbn [cluster_graph_attr list_to_map foldr].
      rewrite !lookup_update. destruct (kwargs !! k); [reflexivity|].
      cbn [fst snd uncurry].
      rewrite !(lookup_insert_ne _ "label" k) by congruence. reflexivity.
Qed.

Example SystemBoundary_escapes :
  SystemBoundary (lit "R&D <core>") ∅
  = Cluster (lit "R&D <core>")
      (list_to_map [("label", lit "R&amp;D &lt;core&gt;");
                    ("bgcolor", lit "white");
                    ("margin", lit "16");
                    ("style", lit "dashed")]).
Proof. unfold SystemBoundary, update. rewrite (left_id ∅ _). reflexivity. Qed.

(** C8. The category key holds the technology only when there is one, and
    the prefix [External] exactly when the flag is set; it is the key under
    which the label is formatted, in every call (the label is set unless the
    caller overrides it).  [Database(name="Orders DB", technology="Postgres")]
    has the key [Database: Postgres], the shape of a cylinder and the fixed
    size 2.6 by 1.6. *)
Theorem category_keys (name technology description : str) (external : bool)
    (kwargs : dict) :
  let Container_key :=
    if truthy technology then lit "Container: " ++ technology
    else lit "Container" in
  let Database_key :=
    if truthy technology then lit "Database: " ++ technology
    else lit "Database" in
  let System_key := if external then lit "External System" else lit "System" in
  let Person_key := if external then lit "External Person" else lit "Person" in
  attr (Container name technology description kwargs) "label"
  = Some (default (_format_node_label name Container_key description)
            (kwargs !! "label"))
  /\ attr (Database name technology description kwargs) "label"
     = Some (default (_format_node_label name Database_key description)
               (kwargs !! "label"))
  /\ attr (System name description external kwargs) "label"
     = Some (default (_format_node_label name System_key description)
               (kwargs !! "label"))
  /\ attr (Person name description external kwargs) "label"
     = Some (default (_format_node_label name Person_key description)
               (kwargs !! "label"))
  /\ Container_key
     = lit "Container"
         ++ (if truthy technology then lit ": " ++ technology else [])
  /\ Database_key
     = lit "Database"
         ++ (if truthy technology then lit ": " ++ technology else [])
  /\ starts_with (lit "External ") System_key = external
  /\ starts_with (lit "External ") Person_key = external
  /\ (let n := Database (lit "Orders DB") (lit "Postgres") [] ∅ in
      attr n "label"
      = Some (lit "<" ++ font "12" ++ lit "<b>Orders DB</b></font><br/>"
                ++ font "9" ++ lit "[Database: Postgres]<br/></font>>")
      /\ attr n "shape" = Some (lit "cylinder")
      /\ attr n "width" = Some (lit "2.6")
      /\ attr n "height" = Some (lit "1.6")
      /\ attr n "fixedsize" = Some (lit "true")).
Proof.
  cbv zeta.
  destruct (node_label_attrs name technology description external kwargs)
    as (HC & HD & HS & HP).
  split; [exact HC|]. split; [exact HD|]. split; [exact HS|]. split; [exact HP|].
  split; [destruct technology; reflexivity|].
  split; [destruct technology; reflexivity|].
  split; [destruct external; reflexivity|].
  split; [destruct external; reflexivity|].
  repeat split; vm_compute; reflexivity.
Qed.

(** C7, amended. A call of [System] with the external flag set and without
    overrides of [width], [height], [fillcolor] and [label] has the gray fill
    and the key [External System] in its label; its size is 2 by 1 when the
    description is empty, and the fixed 2.6 by 1.6 otherwise. *)
Theorem System_external (name description : str) (kwargs : dict) :
  kwargs !! "width" = None -> kwargs !! "height" = None ->
  kwargs !! "fillcolor" = None -> kwargs !! "label" = None ->
  let n := System name description true kwargs in
  attr n "fillcolor" = Some (lit "gray60")
  /\ attr n "label"
     = Some (_format_node_label name (lit "External System") description)
  /\ if truthy description
     then attr n "width" = Some (lit "2.6") /\ attr n "height" = Some (lit "1.6")
     else attr n "width" = Some (lit "2") /\ attr n "height" = Some (lit "1")
          /\ attr n "label"
             = Some (lit "<" ++ font "12" ++ lit "<b>" ++ Html.escape name
                       ++ lit "</b></font><br/>"
                       ++ font "9" ++ lit "[External System]<br/></font>>").
Proof.
  intros Hw Hh Hf Hl n. subst n.
  assert (Hlabel :
    attr (System name description true kwargs) "label"
    = Some (_format_node_label name (lit "External System") description))
    by lookup_attr.
  split; [lookup_attr|]. split; [exact Hlabel|].
  destruct description as [|c d]; cbn [truthy].
  - split; [lookup_attr|]. split; [lookup_attr|].
    rewrite Hlabel. unfold _format_node_label. cbn [truthy].
    rewrite <- !app_assoc. reflexivity.
  - split; lookup_attr.
Qed.

Lemma System_external_witness :
  let kwargs : dict := {[ "shape" := lit "box" ]} in
  kwargs !! "width" = None /\ kwargs !! "height" = None
  /\ kwargs !! "fillcolor" = None /\ kwargs !! "label" = None
  /\ attr (System (lit "Billing") [] true kwargs) "fillcolor"
     = Some (lit "gray60").
Proof.
  repeat (split; [reflexivity|]).
  exact (proj1 (System_external (lit "Billing") [] {[ "shape" := lit "box" ]}
                  eq_refl eq_refl eq_refl eq_refl)).
Defined.

(** C7 as it is stated fails: a call that overrides no size but the fill
    colour does not have the gray fill. *)
Lemma System_external_counterexample :
  let kwargs : dict := {[ "fillcolor" := lit "red" ]} in
  kwargs !! "width" = None /\ kwargs !! "height" = None
  /\ attr (System (lit "Billing") [] true kwargs) "fillcolor"
     <> Some (lit "gray60").
Proof. repeat split. discriminate. Qed.

End BuilderFacts.

(** ** The label formatter *)

Module LabelFacts.
Import TextWrap Wrap C4 Props HtmlFacts WrapFacts DictFacts BuilderFacts.

Lemma pad_to_three_length (lines : list str) :
  length lines <= 3 -> length (pad_to_three lines) = 3.
Proof.
  intros H. unfold pad_to_three. rewrite length_app, repeat_length. lia.
Qed.

Lemma pad_to_three_full (lines : list str) :
  3 <= length lines -> pad_to_three lines = lines.
Proof.
  intros H. unfold pad_to_three.
  replace (3 - length lines) with 0 by lia. apply app_nil_r.
Qed.

Lemma description_lines_length (description : str) :
  length (description_lines description) = 3.
Proof.
  unfold description_lines. apply pad_to_three_length.
  rewrite length_map. apply wrap_at_most_three.
Qed.

Lemma description_lines_escaped (description : str) :
  Forall (fun l => escaped_text l = true) (description_lines description).
Proof.
  unfold description_lines, pad_to_three. apply Forall_app. split.
  - apply Forall_map, Forall_forall. intros l _. apply escape_escaped_text.
  - apply Forall_forall. intros l Hl.
    apply list_elem_of_In, repeat_spec in Hl. subst l. reflexivity.
Qed.

(** The description is set on three lines, none of which holds a tag. *)
Lemma description_three_lines (description : str) :
  exists l1 l2 l3,
    description_lines description = [l1; l2; l3]
    /\ _format_description description
       = l1 ++ lit "<br/>" ++ l2 ++ lit "<br/>" ++ l3
    /\ one_line l1 /\ one_line l2 /\ one_line l3.
Proof.
  pose proof (description_lines_length description) as Hlen.
  pose proof (description_lines_escaped description) as Hesc.
  unfold _format_description.
  destruct (description_lines description) as [|l1 [|l2 [|l3 [|l4 rest]]]];
    try discriminate Hlen.
  exists l1, l2, l3. split; [reflexivity|]. split; [reflexivity|].
  inversion Hesc as [|? ? H1 Hesc1]; subst.
  inversion Hesc1 as [|? ? H2 Hesc2]; subst.
  inversion Hesc2 as [|? ? H3 _]; subst.
  auto using escaped_text_one_line.
Qed.

(** The label of a node: with a description it ends with the body of
    three lines; without one it ends after the category key. *)
Lemma format_node_label_body (name key description : str) :
  truthy key = true ->
  if truthy description
  then three_line_body (_format_node_label name key description)
  else _format_node_label name key description
       = lit "<" ++ font "12" ++ lit "<b>" ++ Html.escape name
           ++ lit "</b></font><br/>"
           ++ font "9" ++ lit "[" ++ Html.escape key ++ lit "]<br/></font>>".
Proof.
  intros Hkey. unfold _format_node_label. rewrite Hkey.
  destruct (truthy description).
  - destruct (description_three_lines description)
      as (l1 & l2 & l3 & _ & Hjoin & H1 & H2 & H3).
    exists (lit "<" ++ (font "12" ++ lit "<b>" ++ Html.escape name
                          ++ lit "</b></font><br/>")
              ++ font "9" ++ lit "[" ++ Html.escape key ++ lit "]<br/></font>"),
      l1, l2, l3.
    split; [|auto]. rewrite Hjoin. rewrite <- !app_assoc. reflexivity.
  - rewrite <- !app_assoc. reflexivity.
Qed.

Lemma occurs_intro (x head tail : str) : occurs x (head ++ x ++ tail) = true.
Proof.
  induction head as [|c head IH].
  - assert (H : starts_with x (x ++ tail) = true).
    { induction x as [|a x IHx]; [reflexivity|].
      simpl. rewrite IHx, Ascii.eqb_refl. reflexivity. }
    cbn [app]. destruct (x ++ tail); simpl; rewrite H; reflexivity.
  - simpl. rewrite IH. apply orb_true_r.
Qed.

Lemma three_line_body_occurs (label : str) :
  three_line_body label -> occurs (font "10") label = true.
Proof.
  intros (head & l1 & l2 & l3 & -> & _).
  rewrite (app_assoc head). apply occurs_intro.
Qed.

(** C1, amended. Every node builder called with a non-empty description and
    without an override of [label] returns a label that ends with a
    description body of exactly three lines; called with the empty
    description it returns a label without a body, which ends after the
    category key.  The description formatter itself gives three blank lines
    for the empty description. *)
Theorem node_label_body (name technology description : str) (external : bool)
    (kwargs : dict) :
  kwargs !! "label" = None ->
  Forall
    (fun n =>
       exists label,
         attr n "label" = Some label
         /\ if truthy description
            then three_line_body label
            else exists key,
                label = lit "<" ++ font "12" ++ lit "<b>" ++ Html.escape name
                          ++ lit "</b></font><br/>"
                          ++ font "9" ++ lit "[" ++ Html.escape key
                          ++ lit "]<br/></font>>")
    (node_calls name technology description external kwargs)
  /\ description_lines [] = [[]; []; []]
  /\ _format_description [] = lit "<br/><br/>".
Proof.
  intros Hkw.
  destruct (node_label_attrs name technology description external kwargs)
    as (HC & HD & HS & HP).
  rewrite Hkw in HC, HD, HS, HP. cbn [default] in HC, HD, HS, HP.
  assert (Hbody : forall key, truthy key = true ->
            if truthy description
            then three_line_body (_format_node_label name key description)
            else exists key',
                _format_node_label name key description
                = lit "<" ++ font "12" ++ lit "<b>" ++ Html.escape name
                    ++ lit "</b></font><br/>"
                    ++ font "9" ++ lit "[" ++ Html.escape key'
                    ++ lit "]<br/></font>>").
  { intros key Hkey.
    pose proof (format_node_label_body name key description Hkey) as H.
    destruct (truthy description); [exact H | exists key; exact H]. }
  split; [|split; reflexivity].
  repeat constructor.
  - eexists. split; [exact HP|]. apply Hbody. destruct external; reflexivity.
  - eexists. split; [exact HS|]. apply Hbody. destruct external; reflexivity.
  - eexists. split; [exact HC|]. apply Hbody. destruct technology; reflexivity.
  - eexists. split; [exact HD|]. apply Hbody. destruct technology; reflexivity.
Qed.

Lemma node_label_body_witness :
  let kwargs : dict := {[ "shape" := lit "box" ]} in
  kwargs !! "label" = None
  /\ Forall
       (fun n => exists label, attr n "label" = Some label /\ three_line_body label)
       (node_calls (lit "Orders DB") (lit "Postgres") (lit "Stores the orders")
          false kwargs).
Proof.
  split; [reflexivity|].
  exact (proj1 (node_label_body (lit "Orders DB") (lit "Postgres")
                  (lit "Stores the orders") false
                  {[ "shape" := lit "box" ]} eq_refl)).
Defined.

(** C1 as it is stated fails for the empty description: the label of
    [Person(name="Alice")] holds no description body. *)
Lemma node_label_body_counterexample :
  exists label,
    attr (Person (lit "Alice") [] false ∅) "label" = Some label
    /\ ~ three_line_body label.
Proof.
  exists (_format_node_label (lit "Alice") (lit "Person") []).
  split; [reflexivity|].
  intros H. apply three_line_body_occurs in H. vm_compute in H. discriminate H.
Qed.

Example Person_Alice_label :
  attr (Person (lit "Alice") [] false ∅) "label"
  = Some (lit "<" ++ font "12" ++ lit "<b>Alice</b></font><br/>"
            ++ font "9" ++ lit "[Person]<br/></font>>").
Proof. reflexivity. Qed.

(** C2, amended. The rule that pads to three lines is idempotent: the
    lines of every formatted description are three already, and padding
    them again changes nothing. *)
Theorem pad_to_three_idempotent (description : str) (lines : list str) :
  pad_to_three (pad_to_three lines) = pad_to_three lines
  /\ length (description_lines description) = 3
  /\ pad_to_three (description_lines description)
     = description_lines description.
Proof.
  split; [|split].
  - unfold pad_to_three at 1.
    replace (3 - length (pad_to_three lines)) with 0; [apply app_nil_r|].
    unfold pad_to_three. rewrite length_app, repeat_length. lia.
  - apply description_lines_length.
  - apply pad_to_three_full. rewrite description_lines_length. lia.
Qed.

(** C2 as it is stated fails: the formatter applied to its own output
    escapes the line breaks of the first pass. *)
Lemma format_description_counterexample :
  _format_description (lit "a") = lit "a<br/><br/>"
  /\ _format_description (_format_description (lit "a"))
     = lit "a&lt;br/&gt;&lt;br/&gt;<br/><br/>"
  /\ _format_description (_format_description (lit "a"))
     <> _format_description (lit "a").
Proof.
  assert (H1 : _format_description (lit "a") = lit "a<br/><br/>")
    by (vm_compute; reflexivity).
  assert (H2 : _format_description (lit "a<br/><br/>")
               = lit "a&lt;br/&gt;&lt;br/&gt;<br/><br/>")
    by (vm_compute; reflexivity).
  rewrite H1, H2. repeat split. discriminate.
Qed.

Lemma ends_with_placeholder (p : str) : ends_with marker (p ++ placeholder).
Proof.
  exists (p ++ lit " "). rewrite <- app_assoc. reflexivity.
Qed.

(** X6. What the truncation does in every case.  When the description wrapped
    at 40 characters takes more than three lines, the body is made of its
    first three lines and of the placeholder, with nothing of the later
    lines: the first line is kept; either the second is kept and the third
    is a non-empty part of the third line followed by the placeholder, or the
    marker alone, or the placeholder moves up to the end of the second line
    and the third line is empty.  The last line that is not empty ends with
    the marker. *)
Theorem truncated_description (description u1 u2 u3 u4 : str)
    (more : list str) :
  wrap (unlimited 40) description = u1 :: u2 :: u3 :: u4 :: more ->
  truncated u1 u2 u3 (wrap node_wrapper description)
  /\ exists l1 l2 l3,
      description_lines description = [l1; l2; l3]
      /\ l1 = Html.escape u1
      /\ ((l2 = Html.escape u2 /\ ends_with marker l3)
          \/ (l2 = Html.escape (rstrip u2) ++ placeholder /\ l3 = [])).
Proof.
  intros HU.
  assert (Hcut : truncated u1 u2 u3 (wrap node_wrapper description)).
  { unfold wrap, _wrap_chunks, node_wrapper in *.
    apply (wrap_loop_truncated 40 _ [] (Nat.le_0_l 2) u1 u2 u3 u4 more HU). }
  split; [exact Hcut|].
  unfold description_lines. fold node_wrapper.
  destruct Hcut as [p q Hp Hq| |]; cbn [map pad_to_three length app repeat Nat.sub].
  - exists (Html.escape u1), (Html.escape u2), (Html.escape (p ++ placeholder)).
    split; [reflexivity|]. split; [reflexivity|]. left. split; [reflexivity|].
    rewrite escape_placeholder. apply ends_with_placeholder.
  - exists (Html.escape u1), (Html.escape u2), (Html.escape marker).
    split; [reflexivity|]. split; [reflexivity|]. left. split; [reflexivity|].
    exists []. reflexivity.
  - exists (Html.escape u1), (Html.escape (rstrip u2 ++ placeholder)), [].
    split; [reflexivity|]. split; [reflexivity|]. right.
    split; [apply escape_placeholder | reflexivity].
Qed.

Lemma truncated_description_witness :
  let description :=
    lit "Stores the orders & invoices of all customers, kept for seven years, then archived to cold storage for compliance reasons" in
  wrap (unlimited 40) description
  = [lit "Stores the orders & invoices of all";
     lit "customers, kept for seven years, then";
     lit "archived to cold storage for compliance";
     lit "reasons"]
  /\ truncated (lit "Stores the orders & invoices of all")
       (lit "customers, kept for seven years, then")
       (lit "archived to cold storage for compliance")
       (wrap node_wrapper description).
Proof.
  assert (H : wrap (unlimited 40)
                (lit "Stores the orders & invoices of all customers, kept for seven years, then archived to cold storage for compliance reasons")
              = [lit "Stores the orders & invoices of all";
                 lit "customers, kept for seven years, then";
                 lit "archived to cold storage for compliance";
                 lit "reasons"])
    by (vm_compute; reflexivity).
  split; [exact H|].
  exact (proj1 (truncated_description _ _ _ _ _ _ H)).
Defined.

Example truncated_description_lines :
  description_lines
    (lit "Stores the orders & invoices of all customers, kept for seven years, then archived to cold storage for compliance reasons")
  = [lit "Stores the orders &amp; invoices of all";
     lit "customers, kept for seven years, then";
     lit "archived to cold storage for [...]"].
Proof. vm_compute. reflexivity. Qed.

(** C3. The docstring of [_format_description] promises that lines past
    the third are discarded and the marker put on the last line; the code
    misses it when the third line starts with a word that leaves no room
    for the placeholder: the wrapping takes four lines, yet the third wrapped
    line is dropped with the fourth, the placeholder moves up to the second
    line, and the third line of the body is empty. *)
Theorem third_line_dropped :
  let description :=
    lit "Settles every invoice of the month by calling billing.InvoiceSettlementReconciliation once the export is done" in
  wrap (unlimited 40) description
  = [lit "Settles every invoice of the month by";
     lit "calling";
     lit "billing.InvoiceSettlementReconciliation";
     lit "once the export is done"]
  /\ description_lines description
     = [lit "Settles every invoice of the month by"; lit "calling [...]"; []]
  /\ ~ (exists l1 l2 l3,
          description_lines description = [l1; l2; l3]
          /\ ends_with marker l3).
Proof.
  assert (H : description_lines
                (lit "Settles every invoice of the month by calling billing.InvoiceSettlementReconciliation once the export is done")
              = [lit "Settles every invoice of the month by";
                 lit "calling [...]"; []])
    by (vm_compute; reflexivity).
  split; [vm_compute; reflexivity|]. split; [exact H|].
  cbv zeta. rewrite H. intros (l1 & l2 & l3 & Heq & head & Hend).
  injection Heq as _ _ <-. destruct head; discriminate Hend.
Qed.

(** C4. [Relationship] called with the empty label returns an edge without
    a [label] attribute; called with another label it sets the attribute to
    the label wrapped on at most 3 lines of at most 24 characters, each line
    escaped, the lines joined by line breaks inside a span of the small
    font.  (A keyword [label] is the label itself, never an override.) *)
Theorem relationship_label (label : str) (kwargs : dict) :
  kwargs !! "label" = None ->
  if truthy label
  then edge_attrs (Relationship label kwargs) !! "label"
       = Some (lit "<" ++ font "10"
                 ++ join (lit "<br/>") (map Html.escape (edge_lines label))
                 ++ lit "</font>>")
       /\ edge_lines label = wrap edge_wrapper label
       /\ length (edge_lines label) <= 3
       /\ Forall (fun l : str => length l <= 24) (edge_lines label)
  else edge_attrs (Relationship label kwargs) !! "label" = None.
Proof.
  intros Hkw. unfold Relationship. cbn [edge_attrs].
  destruct (truthy label).
  - split; [|split; [reflexivity|split]].
    + rewrite lookup_update, Hkw, lookup_update. lookup_literal. reflexivity.
    + apply wrap_at_most_three.
    + apply (wrap_fits edge_wrapper label). reflexivity.
  - rewrite lookup_update, Hkw. lookup_literal. reflexivity.
Qed.

Lemma relationship_label_witness :
  let kwargs : dict := {[ "color" := lit "black" ]} in
  let label := lit "Sends invoice data nightly via batch job" in
  kwargs !! "label" = None
  /\ (edge_attrs (Relationship label kwargs) !! "label"
      = Some (lit "<" ++ font "10"
                ++ join (lit "<br/>") (map Html.escape (edge_lines label))
                ++ lit "</font>>")
      /\ edge_lines label = wrap edge_wrapper label
      /\ length (edge_lines label) <= 3
      /\ Forall (fun l : str => length l <= 24) (edge_lines label)).
Proof.
  split; [reflexivity|].
  exact (relationship_label (lit "Sends invoice data nightly via batch job")
           {[ "color" := lit "black" ]} eq_refl).
Defined.

Example Relationship_invoice_label :
  edge_lines (lit "Sends invoice data nightly via batch job")
  = [lit "Sends invoice data"; lit "nightly via batch job"]
  /\ edge_attrs (Relationship (lit "Sends invoice data nightly via batch job") ∅)
       !! "label"
     = Some (lit "<" ++ font "10"
               ++ lit "Sends invoice data<br/>nightly via batch job</font>>")
  /\ edge_attrs (Relationship [] ∅) !! "label" = None.
Proof. repeat split; vm_compute; reflexivity. Qed.

Lemma tag_count_app (a b : str) : tag_count (a ++ b) = tag_count a + tag_count b.
Proof. apply count_occ_app. Qed.

Lemma tag_count_one_line (l : str) : one_line l -> tag_count l = 0.
Proof. intros H. apply count_occ_not_In, H. Qed.

Lemma tag_count_escape (s : str) : tag_count (Html.escape s) = 0.
Proof. apply tag_count_one_line, escape_one_line. Qed.

(** The tags of a node label are those of the formatter, whatever the
    texts: six around the name, three around the key, five around the
    description. *)
Lemma tag_count_node_label (name key description : str) :
  tag_count (_format_node_label name key description)
  = 6 + (if truthy key then 3 else 0) + (if truthy description then 5 else 0).
Proof.
  unfold _format_node_label.
  destruct (description_three_lines description)
    as (l1 & l2 & l3 & _ & -> & H1 & H2 & H3).
  destruct (truthy key), (truthy description);
    rewrite ?tag_count_app, ?tag_count_escape;
    try rewrite (tag_count_one_line _ H1), (tag_count_one_line _ H2),
      (tag_count_one_line _ H3);
    reflexivity.
Qed.

(** C5. In the label of a node, the name, the category key and the lines of
    the description stand between the tags of the formatter in escaped form
    only, and so do the lines of the label of an edge: none of these texts
    holds a [<], a [>] or a quote, and each of their [&] opens a character
    reference; the tags of a node label are those of the formatter alone.
    Every builder sets these labels, unless the caller overrides the label;
    the title of a boundary is the escaped name. *)
Theorem labels_escape_user_text (name key technology description : str)
    (external : bool) (kwargs : dict) :
  _format_node_label name key description
  = lit "<"
      ++ (font "12" ++ lit "<b>" ++ Html.escape name ++ lit "</b></font><br/>")
      ++ (if truthy key
          then font "9" ++ lit "[" ++ Html.escape key ++ lit "]<br/></font>"
          else [])
      ++ (if truthy description
          then lit "<br/>" ++ font "10"
                 ++ join (lit "<br/>") (description_lines description)
                 ++ lit "</font>"
          else [])
      ++ lit ">"
  /\ escaped_text (Html.escape name) = true
  /\ escaped_text (Html.escape key) = true
  /\ Forall (fun l => escaped_text l = true) (description_lines description)
  /\ tag_count (_format_node_label name key description)
     = 6 + (if truthy key then 3 else 0)
         + (if truthy description then 5 else 0)
  /\ _format_edge_label description
     = lit "<" ++ font "10"
         ++ join (lit "<br/>") (map Html.escape (edge_lines description))
         ++ lit "</font>>"
  /\ Forall (fun l => escaped_text l = true)
       (map Html.escape (edge_lines description))
  /\ attr (Container name technology description kwargs) "label"
     = Some (default
               (_format_node_label name
                  (if truthy technology then lit "Container: " ++ technology
                   else lit "Container") description)
               (kwargs !! "label"))
  /\ attr (Database name technology description kwargs) "label"
     = Some (default
               (_format_node_label name
                  (if truthy technology then lit "Database: " ++ technology
                   else lit "Database") description)
               (kwargs !! "label"))
  /\ attr (System name description external kwargs) "label"
     = Some (default
               (_format_node_label name
                  (if external then lit "External System" else lit "System")
                  description)
               (kwargs !! "label"))
  /\ attr (Person name description external kwargs) "label"
     = Some (default
               (_format_node_label name
                  (if external then lit "External Person" else lit "Person")
                  description)
               (kwargs !! "label"))
  /\ edge_attrs (Relationship description kwargs) !! "label"
     = match kwargs !! "label" with
       | Some v => Some v
       | None =>
           if truthy description then Some (_format_edge_label description)
           else None
       end
  /\ cluster_graph_attr (SystemBoundary name kwargs) !! "label"
     = Some (default (Html.escape name) (kwargs !! "label")).
Proof.
  split; [reflexivity|].
  split; [apply escape_escaped_text|].
  split; [apply escape_escaped_text|].
  split; [apply description_lines_escaped|].
  split; [apply tag_count_node_label|].
  split; [reflexivity|].
  split; [apply Forall_map, Forall_forall; intros l _; apply escape_escaped_text|].
  destruct (node_label_attrs name technology description external kwargs)
    as (HC & HD & HS & HP).
  split; [exact HC|]. split; [exact HD|]. split; [exact HS|]. split; [exact HP|].
  split.
  - unfold Relationship. cbn [edge_attrs]. rewrite lookup_update.
    destruct (kwargs !! "label"); [reflexivity|].
    destruct (truthy description).
    + rewrite lookup_update. lookup_literal. reflexivity.
    + lookup_literal. reflexivity.
  - unfold SystemBoundary. cbn [cluster_graph_attr]. rewrite lookup_update.
    destruct (kwargs !! "label"); [reflexivity|]. lookup_literal. reflexivity.
Qed.

Example label_of_markup_name :
  _format_node_label (lit "<b>R&D</b>") (lit "Container: C++ & 'STL'") []
  = lit "<" ++ font "12"
      ++ lit "<b>&lt;b&gt;R&amp;D&lt;/b&gt;</b></font><br/>"
      ++ font "9"
      ++ lit "[Container: C++ &amp; &#x27;STL&#x27;]<br/></font>>".
Proof. vm_compute. reflexivity. Qed.

End LabelFacts.

(** ** The split into chunks *)

Module SplitFacts.
Import TextWrap Wrap Props.

(** The pieces of the split, put together again, are the text. *)
Lemma wordsep_split_concat (s before gap : str) (skip : nat) :
  concat (wordsep_split before gap skip s) = rev gap ++ skipn skip s.
Proof.
  revert before gap skip. induction s as [|c s IH]; intros before gap skip.
  - simpl. rewrite skipn_nil. reflexivity.
  - cbn [wordsep_split]. destruct skip as [|k].
    + destruct (wordsep_match before (c :: s)) as [[|k]|] eqn:E.
      * rewrite IH. cbn [rev skipn]. rewrite <- app_assoc. reflexivity.
      * cbn [concat]. rewrite IH. cbn [rev app skipn firstn].
        rewrite (firstn_skipn k s). reflexivity.
      * rewrite IH. cbn [rev skipn]. rewrite <- app_assoc. reflexivity.
    + rewrite IH. reflexivity.
Qed.

Lemma concat_filter_truthy (l : list str) : concat (filter truthy l) = concat l.
Proof.
  induction l as [|x l IH]; [reflexivity|].
  rewrite filter_cons. destruct x as [|c x].
  - rewrite decide_False by (intros H; exact H). exact IH.
  - rewrite decide_True by exact I. simpl. rewrite IH. reflexivity.
Qed.

Lemma filter_truthy_nonempty (l : list str) :
  Forall (fun c => c <> []) (filter truthy l).
Proof.
  induction l as [|x l IH]; [constructor|].
  rewrite filter_cons. destruct x as [|c x].
  - rewrite decide_False by (intros H; exact H). exact IH.
  - rewrite decide_True by exact I. constructor; [discriminate|exact IH].
Qed.

(** X13. The split of a text into chunks loses no character and gives no
    empty chunk: the chunks, put together, are the text with its white space
    turned into spaces. *)
Theorem split_round_trip (text : str) :
  concat (_split_chunks text) = _munge_whitespace text
  /\ Forall (fun c => c <> []) (_split_chunks text).
Proof.
  unfold _split_chunks, _split. split.
  - rewrite concat_filter_truthy, wordsep_split_concat. reflexivity.
  - apply filter_truthy_nonempty.
Qed.

(** *** Blank chunks *)

Lemma lstrip_all_space (s : str) : forallb isspace s = true -> lstrip s = [].
Proof.
  induction s as [|c s IH]; [reflexivity|]. simpl. intros H.
  apply andb_prop in H. destruct H as [Hc Hs]. rewrite Hc. apply IH, Hs.
Qed.

Lemma lstrip_not_nil (s : str) : forallb isspace s = false -> lstrip s <> [].
Proof.
  induction s as [|c s IH]; [discriminate|]. simpl.
  destruct (isspace c); [exact IH | discriminate].
Qed.

Lemma lstrip_still_text (s : str) :
  forallb isspace s = false -> forallb isspace (lstrip s) = false.
Proof.
  induction s as [|c s IH]; [discriminate|]. simpl.
  destruct (isspace c) eqn:E; [exact IH|]. intros _. simpl. rewrite E. reflexivity.
Qed.

Lemma forallb_rev (p : ascii -> bool) (s : str) :
  forallb p (rev s) = forallb p s.
Proof.
  induction s as [|c s IH]; [reflexivity|]. simpl.
  rewrite forallb_app, IH. simpl. rewrite andb_true_r. apply andb_comm.
Qed.

(** A chunk is blank when all its characters are white space. *)
Lemma blank_forallb (c : str) : blank c = forallb isspace c.
Proof.
  unfold blank, strip, rstrip.
  destruct (forallb isspace c) eqn:E.
  - rewrite (lstrip_all_space _ E). reflexivity.
  - apply lstrip_still_text in E. rewrite <- forallb_rev in E.
    apply lstrip_not_nil in E.
    destruct (lstrip (rev (lstrip c))) as [|y u]; [contradiction|].
    simpl. destruct (rev u ++ [y]) eqn:E'; [|reflexivity].
    apply app_eq_nil in E'. destruct E' as [_ E']. discriminate E'.
Qed.

Lemma blank_firstn (n : nat) (c : str) : blank c = true -> blank (firstn n c) = true.
Proof.
  rewrite !blank_forallb. rewrite <- (firstn_skipn n c) at 1.
  rewrite forallb_app. intros H. apply andb_prop in H. apply H.
Qed.

Lemma blank_skipn (n : nat) (c : str) : blank c = true -> blank (skipn n c) = true.
Proof.
  rewrite !blank_forallb. rewrite <- (firstn_skipn n c) at 1.
  rewrite forallb_app. intros H. apply andb_prop in H. apply H.
Qed.

End SplitFacts.

(** ** Texts of one line, and blank texts *)

Module WrapCases.
Import TextWrap Wrap C4 Props HtmlFacts WrapFacts SplitFacts.

Lemma fill_line_all (width : nat) (chunks cur_line : list str) (cur_len : nat) :
  cur_len + length (concat chunks) <= width ->
  fill_line width chunks cur_line cur_len
  = ([], rev chunks ++ cur_line, cur_len + length (concat chunks)).
Proof.
  revert cur_line cur_len.
  induction chunks as [|c rest IH]; intros cur_line cur_len H.
  - simpl. rewrite Nat.add_0_r. reflexivity.
  - cbn [concat] in *. rewrite length_app in *. cbn [fill_line].
    destruct (Nat.leb_spec (cur_len + length c) width) as [_|Hc]; [|lia].
    rewrite IH by lia. cbn [rev]. rewrite <- app_assoc.
    rewrite Nat.add_assoc. reflexivity.
Qed.

Lemma ends_in_text_last_chunk (cur_line : list str) (x : str) :
  x <> [] ->
  ends_in_text (concat (rev (x :: cur_line))) = true ->
  blank x = false.
Proof.
  intros Hx H. rewrite blank_forallb, <- forallb_rev.
  unfold ends_in_text in H. cbn [rev] in H.
  rewrite concat_app in H. cbn [concat] in H.
  rewrite app_nil_r, rev_app_distr in H.
  destruct (rev x) as [|y r] eqn:E.
  - apply (f_equal (@rev ascii)) in E. rewrite rev_involutive in E.
    contradiction.
  - cbn [app] in H. simpl. apply negb_true_iff in H. rewrite H. reflexivity.
Qed.

(** Chunks that fit the width together, the last of them not blank, make
    one line. *)
Lemma wrap_loop_one_line (w : TextWrapper) (chunks : list str) :
  Forall (fun c => c <> []) chunks ->
  length (concat chunks) <= width w ->
  ends_in_text (concat chunks) = true ->
  wrap_loop w chunks [] = [concat chunks].
Proof.
  intros Hne Hlen Hend.
  destruct chunks as [|c rest]; [discriminate Hend|].
  rewrite wrap_loop_unfold. unfold next_line. cbn [truthy_list].
  rewrite andb_false_r, fill_line_all by exact Hlen.
  rewrite app_nil_r.
  assert (Hrev : concat (c :: rest) = concat (rev (rev (c :: rest))))
    by (rewrite rev_involutive; reflexivity).
  destruct (rev (c :: rest)) as [|x cl] eqn:E.
  - apply (f_equal (@rev str)) in E. rewrite rev_involutive in E.
    discriminate E.
  - assert (Hx : x <> []).
    { rewrite Forall_forall in Hne. apply Hne, list_elem_of_In, in_rev.
      exact (eq_ind_r (In x) (in_eq x cl) E). }
    rewrite Hrev in Hend.
    rewrite (ends_in_text_last_chunk cl x Hx Hend).
    assert (Hkeep : keeps_line w [] [] (0 + length (concat (c :: rest))) = true).
    { unfold keeps_line. destruct (max_lines w); [|reflexivity].
      apply orb_true_iff. right. apply Nat.leb_le. exact Hlen. }
    rewrite Hkeep, wrap_loop_equation_1. unfold join_line. rewrite <- Hrev.
    reflexivity.
Qed.

(** One blank chunk at the start of the text gives no line: the loop
    takes it piece by piece and drops every piece. *)
Lemma next_line_blank_first (width : nat) (c : str) :
  blank c = true ->
  exists rest n,
    next_line width false [c] = (rest, [], n)
    /\ (rest = [] \/ exists c', rest = [c'] /\ blank c' = true).
Proof.
  intros Hc. unfold next_line. rewrite andb_false_r. cbn [fill_line].
  destruct (Nat.leb_spec (0 + length c) width) as [Hfit|Hlong].
  - rewrite Hc. eexists _, _. split; [reflexivity | left; reflexivity].
  - assert (Hw : (width <? length c) = true) by (apply Nat.ltb_lt; lia).
    rewrite Hw. cbn [_handle_long_word].
    match goal with
    | |- context [firstn ?e c] => generalize e
    end.
    intros cut. rewrite (blank_firstn cut c Hc).
    eexists _, _. split; [reflexivity|]. right.
    exists (skipn cut c). split; [reflexivity | apply blank_skipn, Hc].
Qed.

Lemma wrap_loop_blank (w : TextWrapper) (c : str) :
  blank c = true -> wrap_loop w [c] [] = [].
Proof.
  remember [c] as chunks eqn:E. revert c E.
  induction chunks as [chunks IH] using stack_induction.
  intros c -> Hc. rewrite wrap_loop_unfold. cbn [truthy_list].
  pose proof (next_line_decreases (width w) false c []) as Hdec.
  destruct (next_line_blank_first (width w) c Hc)
    as (rest & n & Hnext & [->|(c' & -> & Hc')]);
    rewrite Hnext in *; cbn [fst] in Hdec.
  - apply wrap_loop_equation_1.
  - exact (IH [c'] Hdec c' eq_refl Hc').
Qed.

(** *** White space of the text *)

Lemma expandtabs_no_tab (col : nat) (d : str) :
  spaces_only d = true -> expandtabs_from tabsize col d = d.
Proof.
  revert col. induction d as [|c d IH]; intros col H; [reflexivity|].
  cbn [spaces_only forallb] in H. apply andb_prop in H. destruct H as [Hc Hd].
  cbn [expandtabs_from].
  destruct (Ascii.eqb_spec c "009") as [->|_]; [discriminate Hc|].
  rewrite IH by exact Hd. reflexivity.
Qed.

(** A text whose white space is made of spaces is wrapped as it is. *)
Lemma munge_spaces_only (d : str) :
  spaces_only d = true -> _munge_whitespace d = d.
Proof.
  intros H. unfold _munge_whitespace, expandtabs.
  rewrite expandtabs_no_tab by exact H.
  induction d as [|c d IH]; [reflexivity|].
  cbn [spaces_only forallb] in H. apply andb_prop in H. destruct H as [Hc Hd].
  cbn [map]. rewrite IH by exact Hd.
  destruct (is_whitespace c); [|reflexivity].
  cbn [negb orb] in Hc. apply Ascii.eqb_eq in Hc. rewrite Hc. reflexivity.
Qed.

Lemma forallb_repeat_space (n : nat) :
  forallb is_whitespace (repeat " "%char n) = true.
Proof. induction n as [|n IH]; [reflexivity|]. simpl. exact IH. Qed.

Lemma expandtabs_all_whitespace (col : nat) (d : str) :
  all_whitespace d = true ->
  all_whitespace (expandtabs_from tabsize col d) = true.
Proof.
  unfold all_whitespace. revert col.
  induction d as [|c d IH]; intros col H; [reflexivity|].
  cbn [forallb] in H. apply andb_prop in H. destruct H as [Hc Hd].
  cbn [expandtabs_from]. destruct (Ascii.eqb c "009").
  - change (0 <? tabsize) with true. cbv iota.
    rewrite forallb_app, forallb_repeat_space. apply IH, Hd.
  - cbn [forallb]. rewrite Hc. apply IH, Hd.
Qed.

Lemma munge_all_whitespace (d : str) :
  all_whitespace d = true -> all_whitespace (_munge_whitespace d) = true.
Proof.
  intros H. unfold _munge_whitespace, expandtabs.
  apply (expandtabs_all_whitespace 0) in H. unfold all_whitespace in *.
  induction (expandtabs_from tabsize 0 d) as [|c s IH]; [reflexivity|].
  cbn [forallb] in H. apply andb_prop in H. destruct H as [Hc Hs].
  cbn [map forallb]. rewrite Hc, (IH Hs). reflexivity.
Qed.

Lemma whitespace_isspace (c : ascii) : is_whitespace c = true -> isspace c = true.
Proof. each_char c; intros H; try reflexivity; discriminate H. Qed.

Lemma all_whitespace_blank (s : str) : all_whitespace s = true -> blank s = true.
Proof.
  rewrite blank_forallb. unfold all_whitespace. rewrite !forallb_forall.
  intros H x Hx. apply whitespace_isspace, H, Hx.
Qed.

Lemma span_all (p : ascii -> bool) (s : str) :
  forallb p s = true -> span p s = length s.
Proof.
  induction s as [|c s IH]; [reflexivity|]. simpl. intros H.
  apply andb_prop in H. destruct H as [Hc Hs]. rewrite Hc, IH by exact Hs.
  reflexivity.
Qed.

Lemma wordsep_split_skip_all (s before gap : str) :
  wordsep_split before gap (length s) s = [rev gap].
Proof.
  revert before. induction s as [|c s IH]; intros before; [reflexivity|].
  cbn [wordsep_split length]. apply IH.
Qed.

(** White space alone is one chunk, or none. *)
Lemma split_all_whitespace (s : str) :
  all_whitespace s = true -> _split s = match s with [] => [] | _ => [s] end.
Proof.
  intros H. unfold _split. destruct s as [|c s]; [reflexivity|].
  cbn [wordsep_split]. unfold wordsep_match, match_whitespace.
  rewrite (span_all _ _ H). cbn [length].
  rewrite wordsep_split_skip_all. cbn [firstn]. rewrite firstn_all.
  reflexivity.
Qed.

(** A text of white space is wrapped to no line at all. *)
Lemma wrap_blank (w : TextWrapper) (text : str) :
  all_whitespace text = true -> wrap w text = [].
Proof.
  intros H. apply munge_all_whitespace in H.
  unfold wrap, _wrap_chunks, _split_chunks.
  rewrite (split_all_whitespace _ H).
  destruct (_munge_whitespace text) as [|c s] eqn:E.
  - apply wrap_loop_equation_1.
  - apply wrap_loop_blank, all_whitespace_blank, H.
Qed.

(** A text that fits the width, whose white space is made of spaces and
    which does not end with white space, is wrapped to itself. *)
Lemma wrap_short (w : TextWrapper) (text : str) :
  length text <= width w ->
  spaces_only text = true ->
  ends_in_text text = true ->
  wrap w text = [text].
Proof.
  intros Hlen Hsp Hend. unfold wrap, _wrap_chunks.
  destruct (split_round_trip text) as [Hcat Hne].
  rewrite (munge_spaces_only _ Hsp) in Hcat.
  rewrite <- Hcat at 2. apply wrap_loop_one_line; rewrite ?Hcat; assumption.
Qed.

End WrapCases.

(** ** Further properties of the formatter and of the builders *)

Module MoreFacts.
Import TextWrap Wrap C4 Props HtmlFacts WrapFacts DictFacts SplitFacts WrapCases.

(** *** Short and blank descriptions *)

(** X1. A description of at most 40 characters, whose white space is made
    of spaces and which does not end with white space, is set on the first
    line of the body, escaped; the two other lines are empty. *)
Theorem short_description (description : str) :
  length description <= 40 ->
  spaces_only description = true ->
  ends_in_text description = true ->
  description_lines description = [Html.escape description; []; []]
  /\ _format_description description
     = Html.escape description ++ lit "<br/><br/>".
Proof.
  intros Hlen Hsp Hend.
  assert (H : description_lines description
              = [Html.escape description; []; []]).
  { unfold description_lines.
    rewrite (wrap_short {| width := 40; max_lines := Some 3 |} description
               Hlen Hsp Hend).
    reflexivity. }
  split; [exact H|]. unfold _format_description. rewrite H. reflexivity.
Qed.

Lemma short_description_witness :
  let description := lit "Stores the orders & invoices" in
  length description <= 40
  /\ spaces_only description = true
  /\ ends_in_text description = true
  /\ description_lines description
     = [Html.escape description; []; []].
Proof.
  assert (Hlen : length (lit "Stores the orders & invoices") <= 40)
    by (vm_compute; lia).
  repeat (split; [first [exact Hlen | reflexivity]|]).
  exact (proj1 (short_description (lit "Stores the orders & invoices")
                  Hlen eq_refl eq_refl)).
Defined.

(** X2. A label of at most 24 characters, whose white space is made of
    spaces and which does not end with white space, is the one line of the
    edge label, escaped inside the span. *)
Theorem short_edge_label (label : str) :
  length label <= 24 ->
  spaces_only label = true ->
  ends_in_text label = true ->
  edge_lines label = [label]
  /\ _format_edge_label label
     = lit "<" ++ font "10" ++ Html.escape label ++ lit "</font>>".
Proof.
  intros Hlen Hsp Hend.
  assert (H : edge_lines label = [label])
    by exact (wrap_short {| width := 24; max_lines := Some 3 |} label
                Hlen Hsp Hend).
  split; [exact H|]. unfold _format_edge_label. rewrite H. reflexivity.
Qed.

Lemma short_edge_label_witness :
  let label := lit "Reads <orders>" in
  length label <= 24
  /\ spaces_only label = true
  /\ ends_in_text label = true
  /\ _format_edge_label label
     = lit "<" ++ font "10" ++ Html.escape label ++ lit "</font>>".
Proof.
  assert (Hlen : length (lit "Reads <orders>") <= 24) by (vm_compute; lia).
  repeat (split; [first [exact Hlen | reflexivity]|]).
  exact (proj2 (short_edge_label (lit "Reads <orders>") Hlen eq_refl eq_refl)).
Defined.

(** X3. A description made of white space alone (spaces, tabs, line
    breaks) is wrapped to no line: the body of the node is three empty
    lines, and the span of the edge label is empty. *)
Theorem blank_description (description : str) :
  all_whitespace description = true ->
  description_lines description = [[]; []; []]
  /\ _format_description description = lit "<br/><br/>"
  /\ edge_lines description = []
  /\ _format_edge_label description = lit "<" ++ font "10" ++ lit "</font>>".
Proof.
  intros H.
  assert (Hn : description_lines description = [[]; []; []]).
  { unfold description_lines. rewrite (wrap_blank _ _ H). reflexivity. }
  assert (He : edge_lines description = [])
    by exact (wrap_blank _ _ H).
  split; [exact Hn|]. split; [unfold _format_description; rewrite Hn; reflexivity|].
  split; [exact He|]. unfold _format_edge_label. rewrite He. reflexivity.
Qed.

Lemma blank_description_witness :
  let description := [" "%char; "009"%char; "010"%char; " "%char] in
  all_whitespace description = true
  /\ _format_description description = lit "<br/><br/>".
Proof.
  split; [reflexivity|].
  exact (proj1 (proj2 (blank_description
                         [" "%char; "009"%char; "010"%char; " "%char] eq_refl))).
Defined.

(** X4. A description made of white space is not an empty description:
    [System] and [Person] keep the size 2.6 by 1.6 and set the body of three
    empty lines, and [Relationship] sets a label of an empty span. *)
Theorem blank_is_not_empty (name description : str) (external : bool)
    (kwargs : dict) :
  truthy description = true ->
  all_whitespace description = true ->
  kwargs !! "width" = None -> kwargs !! "height" = None ->
  kwargs !! "label" = None ->
  Forall
    (fun n =>
       attr n "width" = Some (lit "2.6") /\ attr n "height" = Some (lit "1.6")
       /\ exists key,
           attr n "label"
           = Some (lit "<" ++ font "12" ++ lit "<b>" ++ Html.escape name
                     ++ lit "</b></font><br/>"
                     ++ font "9" ++ lit "[" ++ key ++ lit "]<br/></font>"
                     ++ lit "<br/>" ++ font "10" ++ lit "<br/><br/></font>>"))
    [System name description external kwargs;
     Person name description external kwargs]
  /\ edge_attrs (Relationship description kwargs) !! "label"
     = Some (lit "<" ++ font "10" ++ lit "</font>>").
Proof.
  intros Ht Hws Hw Hh Hl.
  destruct (blank_description description Hws) as (_ & Hfd & _ & Hfe).
  assert (Hlabel : forall key, truthy key = true ->
            _format_node_label name key description
            = lit "<" ++ font "12" ++ lit "<b>" ++ Html.escape name
                ++ lit "</b></font><br/>"
                ++ font "9" ++ lit "[" ++ Html.escape key ++ lit "]<br/></font>"
                ++ lit "<br/>" ++ font "10" ++ lit "<br/><br/></font>>").
  { intros key Hkey. unfold _format_node_label. rewrite Hkey, Ht, Hfd.
    rewrite <- !app_assoc. reflexivity. }
  destruct (BuilderFacts.node_label_attrs name [] description external kwargs)
    as (_ & _ & HS & HP).
  rewrite Hl in HS, HP. cbn [default] in HS, HP.
  split.
  - destruct description as [|c d]; [discriminate Ht|].
    repeat constructor; try lookup_attr.
    + eexists. rewrite HS. rewrite Hlabel by (destruct external; reflexivity).
      reflexivity.
    + eexists. rewrite HP. rewrite Hlabel by (destruct external; reflexivity).
      reflexivity.
  - unfold Relationship. cbn [edge_attrs]. rewrite Ht.
    rewrite lookup_update, Hl, lookup_update. lookup_literal.
    rewrite Hfe. reflexivity.
Qed.

Lemma blank_is_not_empty_witness :
  let kwargs : dict := {[ "shape" := lit "box" ]} in
  truthy (lit " ") = true /\ all_whitespace (lit " ") = true
  /\ kwargs !! "width" = None /\ kwargs !! "height" = None
  /\ kwargs !! "label" = None
  /\ edge_attrs (Relationship (lit " ") kwargs) !! "label"
     = Some (lit "<" ++ font "10" ++ lit "</font>>").
Proof.
  repeat (split; [reflexivity|]).
  exact (proj2 (blank_is_not_empty (lit "Billing") (lit " ") true
                  {[ "shape" := lit "box" ]}
                  eq_refl eq_refl eq_refl eq_refl eq_refl)).
Defined.

(** X5. The lines of the body are the wrapped lines of the description,
    escaped: at most three lines of at most 40 characters before they are
    escaped, then empty lines up to three. *)
Theorem body_lines_fit (description : str) :
  let raw := wrap node_wrapper description in
  length raw <= 3
  /\ Forall (fun l : str => length l <= 40) raw
  /\ description_lines description
     = map Html.escape raw ++ repeat [] (3 - length raw).
Proof.
  cbv zeta. split; [apply wrap_at_most_three|]. split.
  - apply (wrap_fits node_wrapper description). reflexivity.
  - unfold description_lines, pad_to_three. rewrite length_map. reflexivity.
Qed.

(** *** Overrides and sizes *)

(** X7. An override touches its own key only: a key that the caller does
    not override has the value it has in the call without overrides. *)
Theorem overrides_are_local (name technology description label : str)
    (external : bool) (kwargs : dict) (k : string) :
  kwargs !! k = None ->
  attr (Person name description external kwargs) k
  = attr (Person name description external ∅) k
  /\ attr (System name description external kwargs) k
     = attr (System name description external ∅) k
  /\ attr (Container name technology description kwargs) k
     = attr (Container name technology description ∅) k
  /\ attr (Database name technology description kwargs) k
     = attr (Database name technology description ∅) k
  /\ cluster_graph_attr (SystemBoundary name kwargs) !! k
     = cluster_graph_attr (SystemBoundary name ∅) !! k
  /\ edge_attrs (Relationship label kwargs) !! k
     = edge_attrs (Relationship label ∅) !! k.
Proof.
  intros H.
  repeat split;
    unfold attr, Person, System, Container, Database, SystemBoundary,
      Relationship;
    cbn [node_attrs cluster_graph_attr edge_attrs];
    rewrite (lookup_update _ kwargs), H, (lookup_update _ ∅), lookup_empty;
    reflexivity.
Qed.

Lemma overrides_are_local_witness :
  let kwargs : dict := {[ "fillcolor" := lit "red" ]} in
  kwargs !! "shape" = None
  /\ attr (Person (lit "Clerk") [] false kwargs) "shape"
     = attr (Person (lit "Clerk") [] false ∅) "shape".
Proof.
  split; [reflexivity|].
  exact (proj1 (overrides_are_local (lit "Clerk") [] [] [] false
                  {[ "fillcolor" := lit "red" ]} "shape" eq_refl)).
Defined.

(** X8. [Person] collapses as [System] does: without overrides of the
    size, the box is 2 by 1 when the description is empty and 2.6 by 1.6
    otherwise, whatever the external flag. *)
Theorem Person_collapse (name description : str) (external : bool)
    (kwargs : dict) :
  kwargs !! "width" = None -> kwargs !! "height" = None ->
  let n := Person name description external kwargs in
  if truthy description
  then attr n "width" = Some (lit "2.6") /\ attr n "height" = Some (lit "1.6")
  else attr n "width" = Some (lit "2") /\ attr n "height" = Some (lit "1").
Proof.
  intros Hw Hh n. subst n.
  destruct description as [|c d]; cbn [truthy]; split; lookup_attr.
Qed.

Lemma Person_collapse_witness :
  let kwargs : dict := {[ "fillcolor" := lit "red" ]} in
  kwargs !! "width" = None /\ kwargs !! "height" = None
  /\ (attr (Person (lit "Clerk") [] true kwargs) "width" = Some (lit "2")
      /\ attr (Person (lit "Clerk") [] true kwargs) "height" = Some (lit "1")).
Proof.
  split; [reflexivity|]. split; [reflexivity|].
  exact (Person_collapse (lit "Clerk") [] true
           {[ "fillcolor" := lit "red" ]} eq_refl eq_refl).
Defined.

(** X9. [Container] and [Database] never collapse: without overrides of
    the size, the box is 2.6 by 1.6 and of fixed size, with or without a
    description. *)
Theorem Container_Database_size (name technology description : str)
    (kwargs : dict) :
  kwargs !! "width" = None -> kwargs !! "height" = None ->
  kwargs !! "fixedsize" = None ->
  Forall
    (fun n =>
       attr n "width" = Some (lit "2.6") /\ attr n "height" = Some (lit "1.6")
       /\ attr n "fixedsize" = Some (lit "true"))
    [Container name technology description kwargs;
     Database name technology description kwargs].
Proof.
  intros Hw Hh Hf. repeat constructor; lookup_attr.
Qed.

Lemma Container_Database_size_witness :
  let kwargs : dict := {[ "fillcolor" := lit "red" ]} in
  kwargs !! "width" = None /\ kwargs !! "height" = None
  /\ kwargs !! "fixedsize" = None
  /\ Forall
       (fun n =>
          attr n "width" = Some (lit "2.6") /\ attr n "height" = Some (lit "1.6")
          /\ attr n "fixedsize" = Some (lit "true"))
       [Container (lit "API") [] [] kwargs; Database (lit "API") [] [] kwargs].
Proof.
  repeat (split; [reflexivity|]).
  exact (Container_Database_size (lit "API") [] []
           {[ "fillcolor" := lit "red" ]} eq_refl eq_refl eq_refl).
Defined.

(** *** Escaping keeps the text apart *)

Lemma escape_char_spec (c : ascii) :
  (c = "&"%char /\ escape_char c = lit "&amp;")
  \/ (c = "<"%char /\ escape_char c = lit "&lt;")
  \/ (c = ">"%char /\ escape_char c = lit "&gt;")
  \/ (c = DQ /\ escape_char c = lit "&quot;")
  \/ (c = "'"%char /\ escape_char c = lit "&#x27;")
  \/ (c <> "&"%char /\ escape_char c = [c]).
Proof.
  unfold escape_char.
  destruct (Ascii.eqb_spec c "&"); [auto|].
  destruct (Ascii.eqb_spec c "<"); [auto|].
  destruct (Ascii.eqb_spec c ">"); [auto 6|].
  destruct (Ascii.eqb_spec c DQ); [auto 6|].
  destruct (Ascii.eqb_spec c "'"); [auto 7|].
  auto 8.
Qed.

(** What stands for one character is never the start of what stands for
    another. *)
Lemma escape_char_prefix_free (c c' : ascii) (r r' : str) :
  escape_char c ++ r = escape_char c' ++ r' -> c = c' /\ r = r'.
Proof.
  intros H.
  destruct (escape_char_spec c)
    as [[-> E]|[[-> E]|[[-> E]|[[-> E]|[[-> E]|[Hc E]]]]]];
  destruct (escape_char_spec c')
    as [[-> E']|[[-> E']|[[-> E']|[[-> E']|[[-> E']|[Hc' E']]]]]];
  rewrite ?E, ?E' in H; cbn in H;
  try discriminate H;
  try (injection H as H; subst; auto; fail);
  try (injection H as H1 H2; subst; auto; congruence).
Qed.

Lemma escape_cons_not_nil (c : ascii) (r : str) : escape_char c ++ r <> [].
Proof. each_char c; discriminate. Qed.

(** Texts that differ are escaped to texts that differ. *)
Lemma escape_injective (a b : str) : Html.escape a = Html.escape b -> a = b.
Proof.
  revert b. induction a as [|c a IH]; intros [|c' b] H.
  - reflexivity.
  - rewrite escape_cons in H. symmetry in H.
    destruct (escape_cons_not_nil _ _ H).
  - rewrite escape_cons in H. destruct (escape_cons_not_nil _ _ H).
  - rewrite !escape_cons in H. apply escape_char_prefix_free in H.
    destruct H as [-> H]. rewrite (IH b H). reflexivity.
Qed.

(** X10. The label of a node tells the name: two names that give the same
    label, under the same key and description, are the same name. *)
Theorem label_tells_name (name name' key description : str) :
  _format_node_label name key description
  = _format_node_label name' key description ->
  name = name'.
Proof.
  unfold _format_node_label. intros H.
  rewrite <- !app_assoc in H.
  do 3 apply app_inv_head in H.
  apply app_inv_tail in H. apply escape_injective, H.
Qed.

Lemma label_tells_name_witness :
  _format_node_label (lit "R&D") (lit "System") []
  = _format_node_label (lit "R&D") (lit "System") []
  /\ lit "R&D" = lit "R&D".
Proof.
  split; [reflexivity|].
  exact (label_tells_name (lit "R&D") (lit "R&D") (lit "System") [] eq_refl).
Defined.

Lemma escape_char_plain (c : ascii) :
  negb (sensitive c) && negb (Ascii.eqb c "&") = true -> escape_char c = [c].
Proof. each_char c; intros H; try reflexivity; discriminate H. Qed.

(** X11. A text without markup characters is escaped to itself, so that a
    plain name and a plain key stand in the label as they are. *)
Theorem plain_text_verbatim (name key : str) :
  plain name = true -> plain key = true ->
  Html.escape name = name
  /\ _format_node_label name key []
     = lit "<" ++ font "12" ++ lit "<b>" ++ name ++ lit "</b></font><br/>"
         ++ (if truthy key
             then font "9" ++ lit "[" ++ key ++ lit "]<br/></font>"
             else [])
         ++ lit ">".
Proof.
  assert (Hid : forall s, plain s = true -> Html.escape s = s).
  { induction s as [|c s IH]; [reflexivity|]. intros H.
    cbn [plain forallb] in H. apply andb_prop in H. destruct H as [Hc Hs].
    rewrite escape_cons, (escape_char_plain c Hc), (IH Hs). reflexivity. }
  intros Hn Hk. split; [apply Hid, Hn|].
  unfold _format_node_label. rewrite (Hid _ Hn), (Hid _ Hk).
  cbn [truthy]. rewrite <- !app_assoc. reflexivity.
Qed.

Lemma plain_text_verbatim_witness :
  plain (lit "Orders DB") = true /\ plain (lit "Database: Postgres") = true
  /\ Html.escape (lit "Orders DB") = lit "Orders DB".
Proof.
  split; [reflexivity|]. split; [reflexivity|].
  exact (proj1 (plain_text_verbatim (lit "Orders DB") (lit "Database: Postgres")
                  eq_refl eq_refl)).
Defined.

Lemma escape_length (s : str) : length s <= length (Html.escape s).
Proof.
  induction s as [|c s IH]; [reflexivity|].
  rewrite escape_cons, length_app. cbn [length].
  destruct (escape_char_spec c)
    as [[_ E]|[[_ E]|[[_ E]|[[_ E]|[[_ E]|[_ E]]]]]];
    rewrite E; cbn [lit list_ascii_of_string length]; lia.
Qed.

Lemma escape_fixed_plain (s : str) : Html.escape s = s -> plain s = true.
Proof.
  induction s as [|c s IH]; [reflexivity|]. intros H.
  rewrite escape_cons in H. pose proof (escape_length s) as Hlen.
  destruct (escape_char_spec c)
    as [[-> E]|[[-> E]|[[-> E]|[[-> E]|[[-> E]|[Hc E]]]]]];
    rewrite E in H; cbn [lit list_ascii_of_string app] in H;
    try discriminate H.
  - injection H as H. apply (f_equal (@length ascii)) in H.
    cbn [length] in H. lia.
  - injection H as H. pose proof (IH H) as Hp. unfold plain in *.
    cbn [forallb]. rewrite Hp.
    assert (Hs : sensitive c = false).
    { unfold sensitive, DQ.
      destruct (Ascii.eqb_spec c "<") as [->|_]; [discriminate E|].
      destruct (Ascii.eqb_spec c ">") as [->|_]; [discriminate E|].
      destruct (Ascii.eqb_spec c "034") as [->|_]; [discriminate E|].
      destruct (Ascii.eqb_spec c "'") as [->|_]; [discriminate E|].
      reflexivity. }
    rewrite Hs. apply Ascii.eqb_neq in Hc. rewrite Hc. reflexivity.
Qed.

(** X12. Escaping is not idempotent on a text that holds a markup
    character: a name that the caller has escaped already is escaped a
    second time in the label. *)
Theorem escaped_twice (s : str) :
  plain s = false -> Html.escape (Html.escape s) <> Html.escape s.
Proof.
  intros Hs H. apply escape_injective, escape_fixed_plain in H.
  rewrite H in Hs. discriminate Hs.
Qed.

Lemma escaped_twice_witness :
  plain (lit "R&D") = false
  /\ Html.escape (Html.escape (lit "R&D")) <> Html.escape (lit "R&D").
Proof.
  split; [reflexivity|].
  exact (escaped_twice (lit "R&D") eq_refl).
Defined.

Example escaped_name_in_label :
  _format_node_label (lit "R&amp;D") [] []
  = lit "<" ++ font "12" ++ lit "<b>R&amp;amp;D</b></font><br/>>".
Proof. vm_compute. reflexivity. Qed.

End MoreFacts.
